(** * MetadataInfoBot: the report formatter, the size formatter and the
      request pipeline of [bot.py]

    A shallow embedding of [bot.py].

    - Python [str] values are Rocq [string]s holding the UTF-8 encoding of
      the text.  Every pattern the program searches for (newline, the section
      labels, the angle brackets) is ASCII, and UTF-8 is prefix free and
      self-synchronising, so [split], [startswith] and [replace] act on the
      encoding exactly as they act on the code points.  [strip] removes the
      encodings of the code points for which [str.isspace] holds.
    - Python [int] is [Z]; a Python [float] is the dyadic rational it denotes.
    - The [async] functions of the pipeline are computations in a small
      reader/writer/error monad: they read the behaviour of the outside world
      from an environment, record every call that leaves the process in a
      trace, and return a value or raise.  Exceptions are instances of
      [Exception]; task cancellation and interpreter exit are not modelled.
      Creating the temporary file and closing it again is one call. *)

From Stdlib Require Import ZArith List Bool Ascii String Lia.
From Stdlib Require Import Numbers.DecimalString.
Import ListNotations.

Open Scope string_scope.
Open Scope Z_scope.

(** ** Python string primitives *)

Module PyStr.

Definition nl_char : ascii := Ascii.ascii_of_nat 10.
Definition nl : string := String nl_char "".

(** [bool(s)] *)
Definition truthy (s : string) : bool := negb (s =? "")%string.

(** [s.startswith(p)] *)
Definition startswith (s p : string) : bool := String.prefix p s.

(** [s.split('\n')]: never empty, one more field than there are newlines. *)
Fixpoint split_nl (s : string) : list string :=
  match s with
  | EmptyString => [EmptyString]
  | String c s' =>
      if Ascii.eqb c nl_char then EmptyString :: split_nl s'
      else match split_nl s' with
           | h :: t => String c h :: t
           | [] => [String c EmptyString]
           end
  end.

(** [sep.join(l)] *)
Definition join (sep : string) (l : list string) : string :=
  String.concat sep l.

(** [s.replace(old, new)] for a non-empty [old]: occurrences are taken
    left to right and do not overlap.  [skip] counts the characters of a
    match that are still to be passed over. *)
Fixpoint replace_from (old new : string) (skip : nat) (s : string) : string :=
  match s with
  | EmptyString => EmptyString
  | String c s' =>
      match skip with
      | S k => replace_from old new k s'
      | O =>
          if String.prefix old s
          then new ++ replace_from old new (String.length old - 1) s'
          else String c (replace_from old new O s')
      end
  end.

Definition replace (s old new : string) : string :=
  replace_from old new O s.

(** The UTF-8 encodings of the code points with [str.isspace]:
    U+0009..U+000D, U+001C..U+0020, U+0085, U+00A0, U+1680,
    U+2000..U+200A, U+2028, U+2029, U+202F, U+205F, U+3000. *)
Definition byte (n : nat) : ascii := Ascii.ascii_of_nat n.

Definition whitespace : list (list ascii) :=
  map (fun n => [byte n]) [9; 10; 11; 12; 13; 28; 29; 30; 31; 32]%nat
  ++ [[byte 194; byte 133]; [byte 194; byte 160]; [byte 225; byte 154; byte 128]]
  ++ map (fun n => [byte 226; byte 128; byte n])
       [128; 129; 130; 131; 132; 133; 134; 135; 136; 137; 138; 168; 169; 175]%nat
  ++ [[byte 226; byte 129; byte 159]; [byte 227; byte 128; byte 128]].

Fixpoint strip_prefix (p l : list ascii) : option (list ascii) :=
  match p, l with
  | [], _ => Some l
  | _ :: _, [] => None
  | a :: p', b :: l' => if Ascii.eqb a b then strip_prefix p' l' else None
  end.

(** The rest of [l] after one leading white-space character, if any. *)
Fixpoint drop_one (ws : list (list ascii)) (l : list ascii) : option (list ascii) :=
  match ws with
  | [] => None
  | w :: ws' =>
      match strip_prefix w l with
      | Some r => Some r
      | None => drop_one ws' l
      end
  end.

Fixpoint drop_space (ws : list (list ascii)) (fuel : nat) (l : list ascii) : list ascii :=
  match fuel with
  | O => l
  | S f =>
      match drop_one ws l with
      | Some r => drop_space ws f r
      | None => l
      end
  end.

Definition lstrip_bytes (ws : list (list ascii)) (l : list ascii) : list ascii :=
  drop_space ws (List.length l) l.

(** [s.strip()] *)
Definition strip (s : string) : string :=
  let l := lstrip_bytes whitespace (list_ascii_of_string s) in
  let r := lstrip_bytes (map (@rev ascii) whitespace) (rev l) in
  string_of_list_ascii (rev r).

End PyStr.

Import PyStr.

(** ** Exceptions and results *)

Inductive exn : Type :=
| OverflowError
| AttributeError
| OtherError (name : string).

Inductive outcome (A : Type) : Type :=
| Ok (a : A)
| Raise (e : exn).

Arguments Ok {A} a.
Arguments Raise {A} e.

Definition outcome_bind {A B : Type} (o : outcome A) (k : A -> outcome B) : outcome B :=
  match o with
  | Ok a => k a
  | Raise e => Raise e
  end.

Definition outcome_map {A B : Type} (f : A -> B) (o : outcome A) : outcome B :=
  outcome_bind o (fun a => Ok (f a)).

(** ** Python numbers, as far as [format_size] uses them *)

Module PyNum.

(** A running size: the [int] it starts as, or the [float] [m / 2^e] it
    becomes after the first [size /= 1024]. *)
Inductive number : Type :=
| PyInt (n : Z)
| PyFloat (m : Z) (e : Z).

(** Round-half-even of [a / b], for [0 <= a] and [0 < b]. *)
Definition round_half_even (a b : Z) : Z :=
  let q := a / b in
  let r := a mod b in
  if 2 * r <? b then q
  else if b <? 2 * r then q + 1
  else if Z.even q then q else q + 1.

(** The binary64 number nearest to the integer [n >= 0] (ties to even):
    [n] itself up to 53 significant bits, otherwise [n] rounded to 53. *)
Definition round53 (n : Z) : Z :=
  let bits := Z.log2 n + 1 in
  if bits <=? 53 then n
  else
    let s := bits - 53 in
    Z.shiftl (round_half_even n (2 ^ s)) s.

Definition nearest_double (n : Z) : Z := Z.sgn n * round53 (Z.abs n).

(** [float(n)]: raises when the result is not finite. *)
Definition float_of_int (n : Z) : outcome Z :=
  let d := nearest_double n in
  if 2 ^ 1024 <=? Z.abs d then Raise OverflowError else Ok d.

(** [size < 1024] *)
Definition lt_1024 (v : number) : bool :=
  match v with
  | PyInt n => n <? 1024
  | PyFloat m e => m <? 1024 * 2 ^ e
  end.

(** [size / 1024].  On an [int] this is true division: the correctly
    rounded quotient, or [OverflowError].  On a [float] it is exact: the
    loop divides only values that are at least 1024. *)
Definition truediv_1024 (v : number) : outcome number :=
  match v with
  | PyInt n =>
      let d := nearest_double n in
      if 2 ^ 1034 <=? Z.abs d then Raise OverflowError else Ok (PyFloat d 10)
  | PyFloat m e => Ok (PyFloat m (e + 10))
  end.

Definition decimal (n : Z) : string :=
  NilEmpty.string_of_uint (N.to_uint (Z.to_N n)).

Definition two_digits (n : Z) : string :=
  if n <? 10 then "0" ++ decimal n else decimal n.

(** The hundredths shown for [m / 2^e]. *)
Definition hundredths (m e : Z) : Z := round_half_even (100 * Z.abs m) (2 ^ e).

Definition render_hundredths (negative : bool) (c : Z) : string :=
  (if negative then "-" else "") ++ decimal (c / 100) ++ "." ++ two_digits (c mod 100).

(** [f"{x:.2f}"] for the float [m / 2^e]: the exact value, rounded half
    even to two decimals, all integer digits printed. *)
Definition format_float_2f (m e : Z) : string :=
  render_hundredths (m <? 0) (hundredths m e).

(** [f"{size:.2f}"]; an [int] is converted to [float] first. *)
Definition format_2f (v : number) : outcome string :=
  match v with
  | PyInt n => outcome_map (fun d => format_float_2f d 0) (float_of_int n)
  | PyFloat m e => Ok (format_float_2f m e)
  end.

End PyNum.

Import PyNum.

(** ** [format_size] *)

Definition size_units : list string := ["B"; "KB"; "MB"; "GB"; "TB"].

(** The [for unit in ...] loop, from the units still to be tried. *)
Fixpoint format_size_from (units : list string) (size : number) : outcome string :=
  match units with
  | [] => outcome_map (fun v => v ++ " PB") (format_2f size)
  | unit :: rest =>
      if lt_1024 size
      then outcome_map (fun v => v ++ " " ++ unit) (format_2f size)
      else outcome_bind (truediv_1024 size) (format_size_from rest)
  end.

Definition format_size (size : Z) : outcome string :=
  format_size_from size_units (PyInt size).

(** ** [parse_mediainfo] *)

(** The dict literal, in insertion order (the order [items()] iterates in). *)
Definition SECTION_ICONS : list (string * string) :=
  [ ("General", "🗒");
    ("Video", "🎞");
    ("Audio", "🔊");
    ("Text", "🔠");
    ("Subtitle", "🔠");
    ("Menu", "🗃") ].

(** [d.get(key, default)] *)
Fixpoint dict_get (d : list (string * string)) (key default : string) : string :=
  match d with
  | [] => default
  | (k, v) :: d' => if (k =? key)%string then v else dict_get d' key default
  end.

Definition clean_value (value : string) : string :=
  replace (replace value "<" "&lt;") ">" "&gt;".

(** The first entry of the dict whose key the line starts with: the entry at
    which the inner [for] loop reaches its [break]. *)
Fixpoint matching_section (items : list (string * string)) (line : string)
  : option (string * string) :=
  match items with
  | [] => None
  | (section, emoji) :: rest =>
      if startswith line section then Some (section, emoji)
      else matching_section rest line
  end.

(** The four parts both flushes append for a section. *)
Definition section_block (current_section : string) (section_content : list string)
  : list string :=
  let display_section :=
    if startswith current_section "Text"
    then replace current_section "Text" "Subtitle"
    else current_section in
  [ "<h4>" ++ dict_get SECTION_ICONS current_section "📄" ++ " " ++ display_section ++ "</h4>";
    "<pre>";
    join nl section_content;
    "</pre><br>" ].

(** [bool(l)] for a list. *)
Definition list_truthy {A : Type} (l : list A) : bool :=
  match l with
  | [] => false
  | _ :: _ => true
  end.

(** The variables the scanning loop updates. *)
Record scan_state : Type := mk_scan {
  current_section : string;
  section_content : list string;
  html_parts : list string
}.

(** The flush inside the loop, when a header line closes the open section. *)
Definition loop_flush (st : scan_state) : list string :=
  if truthy (current_section st)
  then (html_parts st ++ section_block (current_section st) (section_content st))%list
  else html_parts st.

(** One iteration of [for line in mediainfo_output.split('\n')]. *)
Definition scan_line (st : scan_state) (raw : string) : scan_state :=
  let line := strip raw in
  if negb (truthy line) then st
  else
    match matching_section SECTION_ICONS line with
    | Some _ =>
        let line :=
          if startswith line "Text" then replace line "Text" "Subtitle" else line in
        mk_scan line [] (loop_flush st)
    | None =>
        if truthy (current_section st)
        then mk_scan (current_section st)
                     (section_content st ++ [clean_value line])%list
                     (html_parts st)
        else st
    end.

Definition scan_lines (st : scan_state) (lines : list string) : scan_state :=
  fold_left scan_line lines st.

(** The flush after the loop. *)
Definition final_flush (st : scan_state) : list string :=
  if truthy (current_section st) && list_truthy (section_content st)
  then (html_parts st ++ section_block (current_section st) (section_content st))%list
  else html_parts st.

Definition header_block (file_name size_text : string) : list string :=
  [ "<h3>📁 File Information</h3>";
    "<p><strong>File Name:</strong> <em>" ++ clean_value file_name ++ "</em></p>";
    "<p><strong>File Size:</strong> <em>" ++ size_text ++ "</em></p>";
    "<hr>" ].

Definition disclaimer : string :=
  "<p><em>Note: Analysis is based on initial portions of the file.</em></p>".

(** The loop variables before the first line. *)
Definition initial_state (file_name size_text : string) : scan_state :=
  mk_scan "" [] (header_block file_name size_text).

(** The list [html_parts] holds when the function returns, given the text
    [format_size] produced for the header. *)
Definition report_parts (mediainfo_output file_name size_text : string) : list string :=
  (final_flush
     (scan_lines (initial_state file_name size_text) (split_nl mediainfo_output))
   ++ [disclaimer])%list.

(** A text of several lines. *)
Definition lines (l : list string) : string := join nl l.

Definition parse_mediainfo (mediainfo_output file_name : string) (file_size : Z)
  : outcome string :=
  outcome_bind (format_size file_size) (fun size_text =>
    Ok (join nl (report_parts mediainfo_output file_name size_text))).

(** ** The outside world *)

(** What [message.document], [message.video] or [message.audio] holds.  The
    attribute [file_name] is always present and may be [None]. *)
Record Media : Type := mk_media {
  media_file_name : option string;
  media_file_size : Z
}.

#[warnings="-register-all"]
Inductive Message : Type :=
| mk_message (document video audio : option Media) (reply_to_message : option Message).

Definition document (m : Message) := let 'mk_message d _ _ _ := m in d.
Definition video (m : Message) := let 'mk_message _ v _ _ := m in v.
Definition audio (m : Message) := let 'mk_message _ _ a _ := m in a.
Definition reply_to_message (m : Message) := let 'mk_message _ _ _ r := m in r.

(** [a or b] on values that are [None] or an object. *)
Definition py_or {A : Type} (a b : option A) : option A :=
  match a with
  | Some _ => a
  | None => b
  end.

Inductive log_level : Type := WARNING | ERROR.

(** Every call that leaves the process.  [NamedTemporaryFile] carries what
    the call returned, so that a trace shows which file exists.  A [Log]
    carries the fixed part of the message, without the interpolated detail. *)
Inductive event : Type :=
| ReplyText (text : string)
| EditText (text : string)
| NamedTemporaryFile (result : outcome string)
| OpenFile (path : string)
| NextChunk
| WriteFile (chunk : string)
| CloseFile
| SubprocessExec (program path : string)
| Communicate
| Log (level : log_level) (message : string)
| CreatePage (title content : string)
| HttpGet (url : string)
| Unlink (path : string).

(** How the collaborators answer. *)
Record Env : Type := mk_env {
  reply_text : string -> outcome unit;
  edit_text : string -> outcome unit;
  named_temporary_file : outcome string;
  aiofiles_open : string -> outcome unit;
  app_stream_media : Media -> Z -> list (outcome string);
  file_write : string -> outcome unit;
  file_close : outcome unit;
  create_subprocess_exec : string -> string -> outcome unit;
  communicate : outcome (string * string);
  bytes_decode : string -> outcome string;
  telegraph_create_page : string -> string -> outcome (list (string * string));
  session_get : string -> outcome Z;
  os_unlink : string -> outcome unit
}.

(** ** The monad of the pipeline *)

Definition M (A : Type) : Type := Env -> list event * outcome A.

Definition ret {A : Type} (a : A) : M A := fun _ => ([], Ok a).

Definition bind {A B : Type} (m : M A) (k : A -> M B) : M B :=
  fun env =>
    let (t1, r) := m env in
    match r with
    | Ok a => let (t2, r2) := k a env in ((t1 ++ t2)%list, r2)
    | Raise e => (t1, Raise e)
    end.

(** Something the environment decides without a call leaving the process:
    a builtin that may raise, or a generator being set up. *)
Definition query {A : Type} (answer : Env -> outcome A) : M A :=
  fun env => ([], answer env).

(** A result computed inside the process. *)
Definition lift {A : Type} (o : outcome A) : M A := query (fun _ => o).

(** A call to a collaborator: recorded, then answered by the environment. *)
Definition call {A : Type} (ev : event) (answer : Env -> outcome A) : M A :=
  fun env => ([ev], answer env).

(** [try: m  except Exception as e: h e] *)
Definition try_except {A : Type} (m : M A) (h : exn -> M A) : M A :=
  fun env =>
    let (t1, r) := m env in
    match r with
    | Ok a => (t1, Ok a)
    | Raise e => let (t2, r2) := h e env in ((t1 ++ t2)%list, r2)
    end.

(** [try: m  finally: f].  A [return] inside [m] is an [Ok] result here, so
    [f] runs after it as well. *)
Definition try_finally {A : Type} (m : M A) (f : M unit) : M A :=
  fun env =>
    let (t1, r) := m env in
    let (t2, rf) := f env in
    match rf with
    | Ok _ => ((t1 ++ t2)%list, r)
    | Raise e => ((t1 ++ t2)%list, Raise e)
    end.

Declare Scope pipeline_scope.
Delimit Scope pipeline_scope with pipeline.

Notation "'let*' x ':=' m 'in' k" := (bind m (fun x => k))
  (at level 10, x name, m at level 100, k at level 200) : pipeline_scope.
Notation "m ;; k" := (bind m (fun _ => k))
  (at level 100, right associativity) : pipeline_scope.

Open Scope pipeline_scope.

Definition trace {A : Type} (m : M A) (env : Env) : list event := fst (m env).
Definition result {A : Type} (m : M A) (env : Env) : outcome A := snd (m env).

Definition logger (level : log_level) (message : string) : M unit :=
  call (Log level message) (fun _ => Ok tt).

Definition status_edit_text (text : string) : M unit :=
  call (EditText text) (fun env => edit_text env text).

(** [tempfile.NamedTemporaryFile(delete=False)], closed again at once. *)
Definition new_temp_file : M string :=
  fun env => ([NamedTemporaryFile (named_temporary_file env)], named_temporary_file env).

(** ** [stream_media] *)

(** The [async for] loop: each round asks the generator for a chunk, writes
    it and counts it. *)
Fixpoint write_chunks (limit downloaded_chunks : Z) (chunks : list (outcome string)) : M unit :=
  match chunks with
  | [] => ret tt
  | next :: rest =>
      let* chunk := call NextChunk (fun _ => next) in
      call (WriteFile chunk) (fun env => file_write env chunk) ;;
      let downloaded_chunks := downloaded_chunks + 1 in
      if downloaded_chunks >=? limit then ret tt
      else write_chunks limit downloaded_chunks rest
  end.

Definition stream_media (message : Message) (temp_path : string) (limit : Z)
  : M (option string) :=
  try_except
    (match py_or (py_or (document message) (video message)) (audio message) with
     | None => ret None
     | Some media =>
         call (OpenFile temp_path) (fun env => aiofiles_open env temp_path) ;;
         try_finally
           (let* chunks := query (fun env => Ok (app_stream_media env media limit)) in
            write_chunks limit 0 chunks)
           (call CloseFile file_close) ;;
         ret (Some temp_path)
     end)
    (fun e => logger ERROR "Error streaming media: " ;; ret None).

(** ** [get_mediainfo] *)

Definition get_mediainfo (file_path : string) : M string :=
  try_except
    (call (SubprocessExec "mediainfo" file_path)
          (fun env => create_subprocess_exec env "mediainfo" file_path) ;;
     let* out := call Communicate communicate in
     let (stdout, stderr) := (out : string * string) in
     (if truthy stderr
      then (query (fun env => bytes_decode env stderr) ;;
            logger WARNING "MediaInfo stderr: ")
      else ret tt) ;;
     query (fun env => bytes_decode env stdout))
    (fun e => logger ERROR "Error getting mediainfo: " ;; ret "").

(** ** [create_telegraph_page] *)

Fixpoint dict_lookup (d : list (string * string)) (key : string) : option string :=
  match d with
  | [] => None
  | (k, v) :: d' => if (k =? key)%string then Some v else dict_lookup d' key
  end.

(** A byte that continues a UTF-8 character: 10xxxxxx. *)
Definition is_continuation (c : ascii) : bool :=
  (Nat.leb 128 (nat_of_ascii c) && Nat.ltb (nat_of_ascii c) 192)%bool.

(** [s[:n]]: the first [n] characters of the text.  A character starts at
    every byte that is no continuation byte, and its continuation bytes stay
    with it. *)
Fixpoint slice_to (n : nat) (s : string) : string :=
  match s with
  | EmptyString => EmptyString
  | String c s' =>
      if is_continuation c then String c (slice_to n s')
      else match n with
           | O => EmptyString
           | S n' => String c (slice_to n' s')
           end
  end.

Definition create_telegraph_page (title content : string) : M (option string) :=
  try_except
    (let clean_title := slice_to 128 title in
     let* response := call (CreatePage clean_title content)
                      (fun env => telegraph_create_page env clean_title content) in
     match (if list_truthy response then dict_lookup response "path" else None) with
     | None => logger ERROR "Invalid Telegraph response: " ;; ret None
     | Some path =>
         let url := "https://graph.org/" ++ path in
         let* status := call (HttpGet url) (fun env => session_get env url) in
         if negb (status =? 200)
         then logger ERROR "Created page not accessible: " ;; ret None
         else ret (Some url)
     end)
    (fun e => logger ERROR "Error creating Telegraph page: " ;; ret None).

(** ** [process_media] *)

Definition get_media_from_message (message : Message) : option Media :=
  match reply_to_message message with
  | Some r => py_or (py_or (document r) (video r)) (audio r)
  | None => py_or (py_or (document message) (video message)) (audio message)
  end.

Definition msg_processing : string := "⏳ __Processing media info...__".
Definition msg_no_media : string :=
  "❌ __Please send a media file or reply to one with /mediainfo__".
Definition msg_download_failed : string := "❌ __Failed to download media sample!__".
Definition msg_analyzing : string := "🔍 __Analyzing media info...__".
Definition msg_analysis_failed : string := "❌ __Failed to analyze media!__".
Definition msg_generating : string := "📝 __Generating report...__".
Definition msg_report_failed : string := "❌ __Failed to generate report!__".
Definition msg_unexpected : string :=
  "❌ __An error occurred while processing the media!__" ++ nl ++ "Please try again later.".

(** [f"{file_name}"] *)
Definition str_of_name (file_name : option string) : string :=
  match file_name with
  | Some n => n
  | None => "None"
  end.

Definition msg_success (file_name : option string) (size_text telegraph_url : string) : string :=
  "📊 **Media Information**" ++ nl ++ nl ++
  "📁 **File:** `" ++ str_of_name file_name ++ "`" ++ nl ++
  "💾 **Size:** `" ++ size_text ++ "`" ++ nl ++ nl ++
  "👉 **Detailed info:** " ++ telegraph_url.

(** [parse_mediainfo] as [process_media] calls it: on [None], the file name
    has no [replace]. *)
Definition parse_mediainfo_call (mediainfo_output : string) (file_name : option string)
    (file_size : Z) : outcome string :=
  match file_name with
  | Some n => parse_mediainfo mediainfo_output n file_size
  | None => Raise AttributeError
  end.

(** [x if x else None] for [None] or a string: the value when it is truthy. *)
Definition opt_truthy (x : option string) : option string :=
  match x with
  | Some s => if truthy s then Some s else None
  | None => None
  end.

(** The inner [try] from the analysis result on. *)
Definition report_stage (media : Media) (mediainfo_output : string) : M unit :=
  let file_name := media_file_name media in
  let file_size := media_file_size media in
  if negb (truthy mediainfo_output)
  then status_edit_text msg_analysis_failed
  else
    status_edit_text msg_generating ;;
    let* html_content := lift (parse_mediainfo_call mediainfo_output file_name file_size) in
    let* telegraph_url := create_telegraph_page "Media Info" html_content in
    match opt_truthy telegraph_url with
    | Some telegraph_url =>
        let* size_text := lift (format_size file_size) in
        status_edit_text (msg_success file_name size_text telegraph_url)
    | None => status_edit_text msg_report_failed
    end.

(** The body of the inner [try]. *)
Definition pipeline (message : Message) (media : Media) (temp_path : string) : M unit :=
  let* downloaded_path := stream_media message temp_path 1 in
  match opt_truthy downloaded_path with
  | None => status_edit_text msg_download_failed
  | Some downloaded_path =>
      status_edit_text msg_analyzing ;;
      let* mediainfo_output := get_mediainfo downloaded_path in
      report_stage media mediainfo_output
  end.

(** The [finally] clause. *)
Definition cleanup (temp_path : string) : M unit :=
  try_except
    (call (Unlink temp_path) (fun env => os_unlink env temp_path))
    (fun e => logger ERROR "Error removing temp file: ").

(** The [except] clause of the outer [try]. *)
Definition report_unexpected (e : exn) : M unit :=
  logger ERROR "Error processing media: " ;;
  status_edit_text msg_unexpected.

Definition process_media (message : Message) : M unit :=
  call (ReplyText msg_processing) (fun env => reply_text env msg_processing) ;;
  try_except
    (match get_media_from_message message with
     | None => status_edit_text msg_no_media
     | Some media =>
         let* temp_path := new_temp_file in
         try_finally (pipeline message media temp_path) (cleanup temp_path)
     end)
    report_unexpected.

Close Scope pipeline_scope.

(** ** Vocabulary of the properties *)

(** The character [a] occurs in [s]. *)
Fixpoint occurs (a : ascii) (s : string) : bool :=
  match s with
  | EmptyString => false
  | String c s' => Ascii.eqb a c || occurs a s'
  end.

(** The unit reached after [k] divisions. *)
Definition unit_name (k : nat) : string := nth k size_units "PB".

(** The hundredths shown for the size [n] after [k] divisions by 1024. *)
Definition shown_after (n : Z) (k : nat) : Z :=
  hundredths (nearest_double n) (10 * Z.of_nat k).

(** [format_size n] is the value after [k] divisions, with the unit of [k]. *)
Definition shows_after (n : Z) (k : nat) : Prop :=
  format_size n = Ok (render_hundredths false (shown_after n k) ++ " " ++ unit_name k).

Definition recognized_labels : list string := map fst SECTION_ICONS.

(** The trimmed line starts with one of the recognized labels. *)
Definition starts_with_label (line : string) : bool :=
  existsb (startswith line) recognized_labels.

(** A raw line that is no section header. *)
Definition plain (raw : string) : Prop := starts_with_label (strip raw) = false.

(** What a run of plain lines adds to the open section: the non-blank ones,
    trimmed and escaped. *)
Definition content_of (body : list string) : list string :=
  map clean_value (filter truthy (map strip body)).

(** The parts rendered by the time a header line has been read after the
    lines [before]: the header block and every section closed so far. *)
Definition rendered_before (file_name size_text : string) (before : list string)
  : list string :=
  loop_flush (scan_lines (initial_state file_name size_text) before).

(** The part of the request an event belongs to. *)
Inductive stage : Type := Chat | Temp | Download | Analysis | Publish | Cleanup | Logging.

Definition stage_of (ev : event) : stage :=
  match ev with
  | ReplyText _ | EditText _ => Chat
  | NamedTemporaryFile _ => Temp
  | OpenFile _ | NextChunk | WriteFile _ | CloseFile => Download
  | SubprocessExec _ _ | Communicate => Analysis
  | Log _ _ => Logging
  | CreatePage _ _ | HttpGet _ => Publish
  | Unlink _ => Cleanup
  end.

Definition stage_eqb (a b : stage) : bool :=
  match a, b with
  | Chat, Chat | Temp, Temp | Download, Download | Analysis, Analysis
  | Publish, Publish | Cleanup, Cleanup | Logging, Logging => true
  | _, _ => false
  end.

Definition in_stages (stages : list stage) (ev : event) : bool :=
  existsb (stage_eqb (stage_of ev)) stages.

(** Every event of [m] belongs to one of [stages], whatever the world does. *)
Definition emits {A : Type} (stages : list stage) (m : M A) : Prop :=
  forall env, Forall (fun ev => in_stages stages ev = true) (trace m env).

(** What may still happen once a failure has been reported: the temporary
    file is removed, and if sending the report itself raised, the handler of
    unexpected errors logs and sends its own message. *)
Definition closing_event (ev : event) : bool :=
  match ev with
  | Unlink _ | Log _ _ => true
  | EditText text => (text =? msg_unexpected)%string
  | _ => false
  end.

(** Running the analysis tool raises: it cannot be started, or talking to
    it fails. *)
Definition tool_raises (env : Env) (file_path : string) : Prop :=
  (exists e, create_subprocess_exec env "mediainfo" file_path = Raise e)
  \/ (exists e, communicate env = Raise e).

(** A world in which every collaborator answers, and the analysis tool
    prints [stdout]. *)
Definition answering_env (stdout : string) : Env :=
  mk_env (fun _ => Ok tt) (fun _ => Ok tt) (Ok "/tmp/tmpa1b2c3")
         (fun _ => Ok tt) (fun _ _ => [Ok "chunk-1"; Ok "chunk-2"]) (fun _ => Ok tt) (Ok tt)
         (fun _ _ => Ok tt) (Ok (stdout, "")) (fun bytes => Ok bytes)
         (fun _ _ => Ok [("path", "Media-Info-11-03")]) (fun _ => Ok 200)
         (fun _ => Ok tt).

(** The same world without the analysis tool installed. *)
Definition env_without_tool : Env :=
  mk_env (fun _ => Ok tt) (fun _ => Ok tt) (Ok "/tmp/tmpa1b2c3")
         (fun _ => Ok tt) (fun _ _ => [Ok "chunk-1"; Ok "chunk-2"]) (fun _ => Ok tt) (Ok tt)
         (fun _ _ => Raise (OtherError "FileNotFoundError")) (Ok ("", "")) (fun bytes => Ok bytes)
         (fun _ _ => Ok [("path", "Media-Info-11-03")]) (fun _ => Ok 200)
         (fun _ => Ok tt).

(** A private message carrying a video. *)
Definition video_message : Message :=
  mk_message None (Some (mk_media (Some "clip.mp4") 5242880)) None None.

(** ** The command handlers *)

Definition msg_reply_needed : string :=
  "❌ __Please reply to a media file with /mediainfo or /mi__".

(** [mediainfo_command]: the handler of [/mediainfo] and [/mi]. *)
Definition mediainfo_command (message : Message) : M unit :=
  match reply_to_message message with
  | Some r =>
      match py_or (py_or (document r) (video r)) (audio r) with
      | Some _ => process_media r
      | None => call (ReplyText msg_reply_needed) (fun env => reply_text env msg_reply_needed)
      end
  | None => call (ReplyText msg_reply_needed) (fun env => reply_text env msg_reply_needed)
  end.

(** [media_handler]: the handler of a private message that carries media. *)
Definition media_handler (message : Message) : M unit := process_media message.

(** ** Vocabulary of the further properties *)

(** The name under which a header line opens its section. *)
Definition opened_section (line : string) : string :=
  if startswith line "Text" then replace line "Text" "Subtitle" else line.

(** The lines of a text, grouped: the plain lines before the first header
    line, then every header line with the plain lines that follow it. *)
Fixpoint group_lines (ls : list string) : list string * list (string * list string) :=
  match ls with
  | [] => ([], [])
  | raw :: rest =>
      let (leading, groups) := group_lines rest in
      if starts_with_label (strip raw)
      then ([], (raw, leading) :: groups)
      else (raw :: leading, groups)
  end.

(** The sections of a text: the name each header line opens, with the
    content of the lines that follow it. *)
Definition sections_of (ls : list string) : list (string * list string) :=
  map (fun g => (opened_section (strip (fst g)), content_of (snd g))) (snd (group_lines ls)).

(** The blocks of a run of sections: each one but the last is rendered as it
    is, the last one only when it has content. *)
Fixpoint render_sections (sections : list (string * list string)) : list string :=
  match sections with
  | [] => []
  | (name, content) :: rest =>
      match rest with
      | [] => if list_truthy content then section_block name content else []
      | _ :: _ => (section_block name content ++ render_sections rest)%list
      end
  end.

(** A raw line that is not blank. *)
Definition not_blank (raw : string) : bool := truthy (strip raw).

Definition is_write (ev : event) : bool :=
  match ev with
  | WriteFile _ => true
  | _ => false
  end.

Definition is_next_chunk (ev : event) : bool :=
  match ev with
  | NextChunk => true
  | _ => false
  end.

(** The number of characters of a text: its bytes that start one. *)
Fixpoint code_points (s : string) : nat :=
  match s with
  | EmptyString => O
  | String c s' => if is_continuation c then code_points s' else S (code_points s')
  end.

(** The text starts inside a character. *)
Definition starts_inside_character (s : string) : bool :=
  match s with
  | EmptyString => false
  | String c _ => is_continuation c
  end.

Fixpoint repeat_string (n : nat) (s : string) : string :=
  match n with
  | O => EmptyString
  | S n' => s ++ repeat_string n' s
  end.

(** A title of 130 characters of two bytes each. *)
Definition long_title : string := repeat_string 130 "é".

(** The media a message carries itself. *)
Definition own_media (message : Message) : option Media :=
  py_or (py_or (document message) (video message)) (audio message).

(** A world in which every collaborator answers, but the analysis tool
    also writes diagnostics that cannot be decoded. *)
Definition env_with_bad_stderr : Env :=
  mk_env (fun _ => Ok tt) (fun _ => Ok tt) (Ok "/tmp/tmpa1b2c3")
         (fun _ => Ok tt) (fun _ _ => [Ok "chunk-1"; Ok "chunk-2"]) (fun _ => Ok tt) (Ok tt)
         (fun _ _ => Ok tt) (Ok ("General", String (byte 255) ""))
         (fun bytes => if (bytes =? "General")%string then Ok bytes
                       else Raise (OtherError "UnicodeDecodeError"))
         (fun _ _ => Ok [("path", "Media-Info-11-03")]) (fun _ => Ok 200)
         (fun _ => Ok tt).

(** A world in which every collaborator answers, and the analysis tool
    also writes a readable diagnostic. *)
Definition env_with_warning : Env :=
  mk_env (fun _ => Ok tt) (fun _ => Ok tt) (Ok "/tmp/tmpa1b2c3")
         (fun _ => Ok tt) (fun _ _ => [Ok "chunk-1"; Ok "chunk-2"]) (fun _ => Ok tt) (Ok tt)
         (fun _ _ => Ok tt) (Ok ("General", "E: file is truncated")) (fun bytes => Ok bytes)
         (fun _ _ => Ok [("path", "Media-Info-11-03")]) (fun _ => Ok 200)
         (fun _ => Ok tt).

(** A world in which the page is created but cannot be fetched. *)
Definition env_page_unreachable : Env :=
  mk_env (fun _ => Ok tt) (fun _ => Ok tt) (Ok "/tmp/tmpa1b2c3")
         (fun _ => Ok tt) (fun _ _ => [Ok "chunk-1"; Ok "chunk-2"]) (fun _ => Ok tt) (Ok tt)
         (fun _ _ => Ok tt) (Ok ("General", "")) (fun bytes => Ok bytes)
         (fun _ _ => Ok [("path", "Media-Info-11-03")]) (fun _ => Ok 404)
         (fun _ => Ok tt).

(** A world in which the chat cannot be reached. *)
Definition env_chat_down : Env :=
  mk_env (fun _ => Raise (OtherError "ConnectionError"))
         (fun _ => Raise (OtherError "ConnectionError")) (Ok "/tmp/tmpa1b2c3")
         (fun _ => Ok tt) (fun _ _ => [Ok "chunk-1"; Ok "chunk-2"]) (fun _ => Ok tt) (Ok tt)
         (fun _ _ => Ok tt) (Ok ("General", "")) (fun bytes => Ok bytes)
         (fun _ _ => Ok [("path", "Media-Info-11-03")]) (fun _ => Ok 200)
         (fun _ => Ok tt).

(** A video sent as a reply to [video_message]. *)
Definition video_replying_to_video : Message :=
  mk_message None (Some (mk_media (Some "other.mkv") 1536)) None (Some video_message).

(** A text message that replies to [video_message]. *)
Definition command_message : Message :=
  mk_message None None None (Some video_message).

(** A document sent as a reply to a message without media. *)
Definition document_replying_to_text : Message :=
  mk_message (Some (mk_media (Some "notes.pdf") 2048)) None None
             (Some (mk_message None None None None)).

(** * Properties *)

(** ** Strings *)

Example split_nl_empty : split_nl "" = [""].
Proof. reflexivity. Qed.

Example split_nl_trailing : split_nl (lines ["a"; ""; ""]) = ["a"; ""; ""].
Proof. reflexivity. Qed.

Example strip_mixed :
  strip (String (byte 9) " " ++ "Width : 1920  "
         ++ String (byte 194) (String (byte 160) (String (byte 13) "")))
  = "Width : 1920".
Proof. reflexivity. Qed.

Example replace_every_occurrence : replace "Text Text" "Text" "Subtitle" = "Subtitle Subtitle".
Proof. reflexivity. Qed.

Example replace_without_overlap : replace "aaa" "aa" "b" = "ba".
Proof. reflexivity. Qed.

Lemma truthy_false s : truthy s = false -> s = "".
Proof. destruct s; [reflexivity | discriminate]. Qed.

Lemma truthy_true s : truthy s = true -> s <> "".
Proof. destruct s; [discriminate | intros _ H; discriminate H]. Qed.

Lemma occurs_append a s t : occurs a (s ++ t) = occurs a s || occurs a t.
Proof.
  induction s as [|c s IH]; simpl; [reflexivity|].
  now rewrite IH, orb_assoc.
Qed.

Lemma prefix_nil s : String.prefix "" s = true.
Proof. destruct s; reflexivity. Qed.

(** After [replace s a new], the character [a] is gone unless [new] brings it
    back. *)
Lemma replace_char_gone a new s :
  occurs a new = false -> occurs a (replace s (String a "") new) = false.
Proof.
  intros Hnew. unfold replace.
  induction s as [|c s IH]; simpl; [reflexivity|].
  destruct (ascii_dec a c) as [->|Hne].
  - rewrite prefix_nil. simpl. rewrite occurs_append, Hnew. exact IH.
  - simpl. rewrite IH, orb_false_r. now apply Ascii.eqb_neq.
Qed.

(** A replacement brings in no character that neither the text nor the new
    piece holds. *)
Lemma replace_char_absent a b new s :
  occurs b new = false -> occurs b s = false ->
  occurs b (replace s (String a "") new) = false.
Proof.
  intros Hnew. unfold replace.
  induction s as [|c s IH]; simpl; [reflexivity|].
  intros Hs. apply orb_false_elim in Hs as [Hc Hs].
  destruct (ascii_dec a c) as [->|Hne].
  - rewrite prefix_nil. simpl. rewrite occurs_append, Hnew. now apply IH.
  - simpl. now rewrite Hc, IH.
Qed.

Lemma clean_value_escaped value :
  occurs "<" (clean_value value) = false /\ occurs ">" (clean_value value) = false.
Proof.
  unfold clean_value. split.
  - apply replace_char_absent; [reflexivity|].
    now apply replace_char_gone.
  - now apply replace_char_gone.
Qed.

(** A line that starts with ["Text"] is still non-empty after the renaming. *)
Lemma renamed_truthy line :
  truthy line = true ->
  truthy (if startswith line "Text" then replace line "Text" "Subtitle" else line) = true.
Proof.
  intros Hline. destruct (startswith line "Text") eqn:Hp; [|exact Hline].
  destruct line as [|c line]; [discriminate|].
  unfold replace. unfold startswith in Hp. cbn [replace_from]. now rewrite Hp.
Qed.

(** ** The section scanner *)

Lemma matching_section_none items line :
  existsb (startswith line) (map fst items) = false ->
  matching_section items line = None.
Proof.
  induction items as [|[section emoji] items IH]; simpl; [reflexivity|].
  intros H. apply orb_false_elim in H as [H1 H2].
  now rewrite H1, IH.
Qed.

Lemma matching_section_some items line :
  existsb (startswith line) (map fst items) = true ->
  exists entry, matching_section items line = Some entry.
Proof.
  induction items as [|[section emoji] items IH]; simpl; [discriminate|].
  intros H. destruct (startswith line section); [eauto|].
  now apply IH.
Qed.

Lemma scan_lines_app st l1 l2 :
  scan_lines st (l1 ++ l2) = scan_lines (scan_lines st l1) l2.
Proof. apply fold_left_app. Qed.

Lemma scan_lines_cons st raw body :
  scan_lines st (raw :: body) = scan_lines (scan_line st raw) body.
Proof. reflexivity. Qed.

(** With no section open, plain lines leave the loop variables as they are. *)
Lemma scan_plain_closed body st :
  current_section st = "" -> Forall plain body -> scan_lines st body = st.
Proof.
  intros Hcur Hbody. induction Hbody as [|raw body Hraw _ IH]; [reflexivity|].
  rewrite scan_lines_cons. unfold scan_line.
  rewrite (matching_section_none _ _ Hraw), Hcur.
  destruct (truthy (strip raw)); exact IH.
Qed.

(** With a section open, plain lines only extend its content. *)
Lemma scan_plain_open body st :
  truthy (current_section st) = true -> Forall plain body ->
  scan_lines st body
  = mk_scan (current_section st) (section_content st ++ content_of body) (html_parts st).
Proof.
  intros Hcur Hbody. revert st Hcur.
  induction Hbody as [|raw body Hraw _ IH]; intros st Hcur.
  - unfold content_of. simpl. rewrite app_nil_r. now destruct st.
  - rewrite scan_lines_cons. unfold scan_line.
    rewrite (matching_section_none _ _ Hraw), Hcur.
    unfold content_of. cbn [map filter].
    destruct (truthy (strip raw)); cbn [negb].
    + rewrite IH by exact Hcur. cbn [current_section section_content html_parts map].
      unfold content_of. now rewrite <- app_assoc.
    + now rewrite IH.
Qed.

(** A header line closes the open section and opens its own. *)
Lemma scan_header st raw :
  starts_with_label (strip raw) = true ->
  scan_line st raw
  = mk_scan (if startswith (strip raw) "Text"
             then replace (strip raw) "Text" "Subtitle" else strip raw)
            [] (loop_flush st)
  /\ truthy (strip raw) = true.
Proof.
  intros H. unfold scan_line.
  destruct (truthy (strip raw)) eqn:Ht.
  - destruct (matching_section_some SECTION_ICONS _ H) as [entry ->]. now split.
  - apply truthy_false in Ht. rewrite Ht in H. discriminate.
Qed.

(** The report for a text that ends with a header line and plain lines. *)
Lemma report_last_section pre header body name size_text :
  starts_with_label (strip header) = true -> Forall plain body -> content_of body <> [] ->
  final_flush (scan_lines (initial_state name size_text) (pre ++ header :: body))
  = (rendered_before name size_text pre
     ++ section_block (if startswith (strip header) "Text"
                       then replace (strip header) "Text" "Subtitle" else strip header)
                      (content_of body))%list.
Proof.
  intros Hh Hbody Hne.
  rewrite scan_lines_app, scan_lines_cons.
  destruct (scan_header (scan_lines (initial_state name size_text) pre) header Hh) as [-> Ht].
  pose proof (renamed_truthy _ Ht) as Hcur.
  rewrite scan_plain_open by (simpl; assumption).
  unfold final_flush. simpl. rewrite Hcur.
  destruct (content_of body); [contradiction|]. reflexivity.
Qed.

(** ** The report formatter on the specification's scenarios *)

(** C4: for the five lines General, Format: MPEG-4, Video, Format: AVC and
    Width: 1920, with name clip.mp4 and size 5242880, the report is the header
    block with clip.mp4 and 5.00 MB, a General section holding exactly
    Format: MPEG-4, a Video section holding exactly Format: AVC and
    Width: 1920, and the disclaimer, in this order and with nothing else. *)
Theorem parse_mediainfo_clip :
  parse_mediainfo
    (lines ["General"; "Format: MPEG-4"; "Video"; "Format: AVC"; "Width: 1920"])
    "clip.mp4" 5242880
  = Ok (lines
      [ "<h3>📁 File Information</h3>";
        "<p><strong>File Name:</strong> <em>clip.mp4</em></p>";
        "<p><strong>File Size:</strong> <em>5.00 MB</em></p>";
        "<hr>";
        "<h4>🗒 General</h4>"; "<pre>"; "Format: MPEG-4"; "</pre><br>";
        "<h4>🎞 Video</h4>"; "<pre>"; lines ["Format: AVC"; "Width: 1920"]; "</pre><br>";
        disclaimer ]).
Proof. vm_compute. reflexivity. Qed.

(** C1, at the input General, Video, Format: AVC: the General header has no
    content line before the Video header, and the loop still renders its
    block, with an empty preformatted element.  Only the flush after the loop
    asks for content. *)
Theorem empty_section_before_header_is_rendered :
  parse_mediainfo (lines ["General"; "Video"; "Format: AVC"]) "clip.mp4" 0
  = Ok (lines
      [ "<h3>📁 File Information</h3>";
        "<p><strong>File Name:</strong> <em>clip.mp4</em></p>";
        "<p><strong>File Size:</strong> <em>0.00 B</em></p>";
        "<hr>";
        "<h4>🗒 General</h4>"; "<pre>"; ""; "</pre><br>";
        "<h4>🎞 Video</h4>"; "<pre>"; "Format: AVC"; "</pre><br>";
        disclaimer ]).
Proof. vm_compute. reflexivity. Qed.

(** The same header at the end of the input is dropped. *)
Lemma empty_section_at_end_is_dropped st :
  section_content st = [] -> final_flush st = html_parts st.
Proof.
  intros H. unfold final_flush. rewrite H. now rewrite andb_false_r.
Qed.

(** The loop's flush does not look at the content. *)
Lemma loop_flush_ignores_content st :
  truthy (current_section st) = true ->
  loop_flush st
  = (html_parts st ++ section_block (current_section st) (section_content st))%list.
Proof. intros H. unfold loop_flush. now rewrite H. Qed.

(** C2, at the input Video <HD>, Format: <AVC> with name a<b>.mp4: the file
    name and the content line are escaped, the section heading is written as
    it came. *)
Theorem section_heading_is_not_escaped :
  parse_mediainfo (lines ["Video <HD>"; "Format: <AVC>"]) "a<b>.mp4" 0
  = Ok (lines
      [ "<h3>📁 File Information</h3>";
        "<p><strong>File Name:</strong> <em>a&lt;b&gt;.mp4</em></p>";
        "<p><strong>File Size:</strong> <em>0.00 B</em></p>";
        "<hr>";
        "<h4>📄 Video <HD></h4>"; "<pre>"; "Format: &lt;AVC&gt;"; "</pre><br>";
        disclaimer ]).
Proof. vm_compute. reflexivity. Qed.

(** Every content line the scanner keeps is escaped. *)
Lemma section_content_escaped body st :
  Forall (fun l => occurs "<" l = false /\ occurs ">" l = false) (section_content st) ->
  Forall (fun l => occurs "<" l = false /\ occurs ">" l = false)
         (section_content (scan_lines st body)).
Proof.
  revert st. induction body as [|raw body IH]; intros st Hst; [exact Hst|].
  rewrite scan_lines_cons. apply IH. unfold scan_line.
  destruct (truthy (strip raw)); cbn [negb]; [|exact Hst].
  destruct (matching_section SECTION_ICONS (strip raw)); [constructor|].
  destruct (truthy (current_section st)); [|exact Hst].
  cbn [section_content]. apply Forall_app. split; [exact Hst|].
  constructor; [apply clean_value_escaped | constructor].
Qed.

(** C3, at the input Audio #1, Format: AAC: the header line is matched by the
    label Audio, and the sub-heading carries the default glyph, because the
    icon is looked up under the whole header line. *)
Theorem numbered_section_gets_default_icon :
  matching_section SECTION_ICONS "Audio #1" = Some ("Audio", "🔊")
  /\ parse_mediainfo (lines ["Audio #1"; "Format: AAC"]) "clip.mp4" 0
     = Ok (lines
         [ "<h3>📁 File Information</h3>";
           "<p><strong>File Name:</strong> <em>clip.mp4</em></p>";
           "<p><strong>File Size:</strong> <em>0.00 B</em></p>";
           "<hr>";
           "<h4>📄 Audio #1</h4>"; "<pre>"; "Format: AAC"; "</pre><br>";
           disclaimer ]).
Proof. split; vm_compute; reflexivity. Qed.

(** C6: when no line of the raw text, once trimmed, starts with a recognized
    label, the report is the header block followed by the disclaimer, with no
    section block; this covers the empty text and texts of blank lines only.
    More generally the lines before the first section header never change
    the report. *)
Theorem no_header_gives_header_and_disclaimer :
  (forall out name size,
     Forall plain (split_nl out) ->
     parse_mediainfo out name size
     = outcome_map (fun size_text => lines (header_block name size_text ++ [disclaimer]))
                   (format_size size))
  /\ (forall out, Forall (fun raw => strip raw = "") (split_nl out) ->
                  Forall plain (split_nl out))
  /\ (forall out out' before name size,
        split_nl out = (before ++ split_nl out')%list -> Forall plain before ->
        parse_mediainfo out name size = parse_mediainfo out' name size).
Proof.
  split; [|split].
  - intros out name size Hplain. unfold parse_mediainfo, outcome_map.
    destruct (format_size size) as [size_text|e]; [|reflexivity].
    cbn [outcome_bind]. unfold report_parts.
    now rewrite scan_plain_closed.
  - intros out H. eapply Forall_impl; [|exact H].
    intros raw Hraw. unfold plain. now rewrite Hraw.
  - intros out out' before name size Hsplit Hplain. unfold parse_mediainfo.
    destruct (format_size size) as [size_text|e]; [|reflexivity].
    cbn [outcome_bind]. unfold report_parts.
    rewrite Hsplit, scan_lines_app.
    now rewrite (scan_plain_closed before).
Qed.

Lemma no_header_gives_header_and_disclaimer_witness :
  parse_mediainfo (lines [""; "  "; "Format: AVC"]) "clip.mp4" 1536
  = Ok (lines [ "<h3>📁 File Information</h3>";
                "<p><strong>File Name:</strong> <em>clip.mp4</em></p>";
                "<p><strong>File Size:</strong> <em>1.50 KB</em></p>";
                "<hr>";
                disclaimer ]).
Proof.
  apply (proj1 no_header_gives_header_and_disclaimer
           (lines [""; "  "; "Format: AVC"]) "clip.mp4" 1536).
  repeat constructor.
Defined.

(** A header line that reads exactly Text, as the last header line of a
    text: it is taken as a section header by the Text prefix rule, the plain
    lines after it become the content of its section, and the section is
    rendered under the label Subtitle with the icon of subtitles.  The
    content is the same as under any other header line in that place. *)
Theorem text_header_is_rendered_as_subtitle :
  forall out name size before header body,
    split_nl out = (before ++ header :: body)%list ->
    strip header = "Text" ->
    Forall plain body ->
    content_of body <> [] ->
    matching_section SECTION_ICONS (strip header) = Some ("Text", "🔠")
    /\ parse_mediainfo out name size
       = outcome_map
           (fun size_text =>
              lines (rendered_before name size_text before
                     ++ [ "<h4>🔠 Subtitle</h4>"; "<pre>"; lines (content_of body);
                          "</pre><br>"; disclaimer ]))
           (format_size size)
    /\ forall out' header',
         split_nl out' = (before ++ header' :: body)%list ->
         starts_with_label (strip header') = true ->
         exists heading,
           parse_mediainfo out' name size
           = outcome_map
               (fun size_text =>
                  lines (rendered_before name size_text before
                         ++ [ heading; "<pre>"; lines (content_of body);
                              "</pre><br>"; disclaimer ]))
               (format_size size).
Proof.
  intros out name size before header body Hsplit Hheader Hbody Hne.
  assert (Hlabel : starts_with_label (strip header) = true) by now rewrite Hheader.
  split; [now rewrite Hheader|]. split.
  - unfold parse_mediainfo, outcome_map.
    destruct (format_size size) as [size_text|e]; [|reflexivity].
    cbn [outcome_bind]. unfold report_parts.
    rewrite Hsplit, (report_last_section _ _ _ _ _ Hlabel Hbody Hne), Hheader.
    now rewrite <- app_assoc.
  - intros out' header' Hsplit' Hlabel'.
    eexists. unfold parse_mediainfo, outcome_map.
    destruct (format_size size) as [size_text|e]; [|reflexivity].
    cbn [outcome_bind]. unfold report_parts.
    rewrite Hsplit', (report_last_section _ _ _ _ _ Hlabel' Hbody Hne).
    unfold section_block. rewrite <- app_assoc. reflexivity.
Qed.

Lemma text_header_is_rendered_as_subtitle_witness :
  parse_mediainfo (lines ["General"; "Format: MKV"; " Text "; "Format: <UTF-8>"; ""; "Language: en"])
                  "clip.mkv" 0
  = Ok (lines [ "<h3>📁 File Information</h3>";
                "<p><strong>File Name:</strong> <em>clip.mkv</em></p>";
                "<p><strong>File Size:</strong> <em>0.00 B</em></p>";
                "<hr>";
                "<h4>🗒 General</h4>"; "<pre>"; "Format: MKV"; "</pre><br>";
                "<h4>🔠 Subtitle</h4>"; "<pre>";
                lines ["Format: &lt;UTF-8&gt;"; "Language: en"]; "</pre><br>";
                disclaimer ]).
Proof.
  refine (proj1 (proj2 (text_header_is_rendered_as_subtitle
           (lines ["General"; "Format: MKV"; " Text "; "Format: <UTF-8>"; ""; "Language: en"])
           "clip.mkv" 0 ["General"; "Format: MKV"] " Text "
           ["Format: <UTF-8>"; ""; "Language: en"] _ _ _ _))).
  - reflexivity.
  - reflexivity.
  - repeat constructor.
  - discriminate.
Defined.

(** C7, at the input Text #1, Format: UTF-8, Menu, 00:00:00.000 : Intro: the
    header line Text #1 is recognized by the Text prefix rule, the line after
    it becomes the content of its section, and the section is displayed under
    the renamed line Subtitle #1; but its sub-heading carries the default
    glyph, not the icon of subtitles, because the icon is looked up under the
    whole renamed header line. *)
Theorem numbered_text_section_gets_default_icon :
  matching_section SECTION_ICONS "Text #1" = Some ("Text", "🔠")
  /\ parse_mediainfo
       (lines ["Text #1"; "Format: UTF-8"; "Menu"; "00:00:00.000 : Intro"]) "clip.mkv" 0
     = Ok (lines
         [ "<h3>📁 File Information</h3>";
           "<p><strong>File Name:</strong> <em>clip.mkv</em></p>";
           "<p><strong>File Size:</strong> <em>0.00 B</em></p>";
           "<hr>";
           "<h4>📄 Subtitle #1</h4>"; "<pre>"; "Format: UTF-8"; "</pre><br>";
           "<h4>🗃 Menu</h4>"; "<pre>"; "00:00:00.000 : Intro"; "</pre><br>";
           disclaimer ]).
Proof. split; vm_compute; reflexivity. Qed.

(** ** The size formatter *)

Lemma round_half_even_near a b :
  0 <= a -> 0 < b ->
  a / b <= round_half_even a b <= a / b + 1
  /\ 2 * Z.abs (a - round_half_even a b * b) <= b.
Proof.
  intros Ha Hb. unfold round_half_even.
  pose proof (Z.div_mod a b ltac:(lia)) as Hdiv.
  pose proof (Z.mod_pos_bound a b Hb) as Hmod.
  destruct (2 * (a mod b) <? b) eqn:H1; [apply Z.ltb_lt in H1; split; nia|].
  apply Z.ltb_ge in H1.
  destruct (b <? 2 * (a mod b)) eqn:H2; [apply Z.ltb_lt in H2; split; nia|].
  apply Z.ltb_ge in H2.
  destruct (Z.even (a / b)); split; nia.
Qed.

Lemma round53_small n : 0 <= n < 2 ^ 53 -> round53 n = n.
Proof.
  intros [H0 H53]. unfold round53.
  assert (Z.log2 n + 1 <= 53) as Hbits.
  { destruct (Z.eq_dec n 0) as [->|Hn]; [cbn; lia|].
    assert (Z.log2 n < 53) by (apply Z.log2_lt_pow2; lia). lia. }
  apply Z.leb_le in Hbits. now rewrite Hbits.
Qed.

Lemma round53_large n :
  2 ^ 53 <= n -> 2 ^ 53 <= round53 n <= 2 ^ (Z.log2 n + 1).
Proof.
  intros H53. unfold round53.
  assert (0 < n) as Hpos by (pose proof (Z.pow_pos_nonneg 2 53); lia).
  assert (53 <= Z.log2 n) as Hlog by (apply Z.log2_le_pow2; lia).
  destruct (Z.log2 n + 1 <=? 53) eqn:Hb; [apply Z.leb_le in Hb; lia|].
  clear Hb. set (s := Z.log2 n + 1 - 53).
  assert (0 < s) as Hs by (unfold s; lia).
  pose proof (Z.log2_spec n Hpos) as [Hlo Hhi].
  replace (Z.log2 n) with (52 + s) in Hlo by (unfold s; lia).
  replace (Z.succ (Z.log2 n)) with (53 + s) in Hhi by (unfold s; lia).
  replace (Z.log2 n + 1) with (53 + s) by (unfold s; lia).
  rewrite Z.pow_add_r in Hlo, Hhi |- * by lia.
  assert (0 < 2 ^ s) as Hp by (apply Z.pow_pos_nonneg; lia).
  destruct (round_half_even_near n (2 ^ s)) as [[Hq1 Hq2] _]; [lia | exact Hp |].
  assert (2 ^ 52 <= n / 2 ^ s) by (apply Z.div_le_lower_bound; lia).
  assert (n / 2 ^ s < 2 ^ 53) by (apply Z.div_lt_upper_bound; lia).
  rewrite Z.shiftl_mul_pow2 by lia.
  assert (2 <= 2 ^ s) by (change 2 with (2 ^ 1) at 1; apply Z.pow_le_mono_r; lia).
  split; [|nia].
  change (2 ^ 53) with (2 ^ 52 * 2). nia.
Qed.

Lemma nearest_double_nonneg n : 0 <= n -> nearest_double n = round53 n.
Proof.
  intros H. unfold nearest_double.
  destruct (Z.eq_dec n 0) as [->|Hn]; [reflexivity|].
  rewrite Z.sgn_pos, Z.abs_eq by lia. lia.
Qed.

Lemma nearest_double_exact n : 0 <= n < 2 ^ 53 -> nearest_double n = n.
Proof. intros H. rewrite nearest_double_nonneg by lia. now apply round53_small. Qed.

(** Rounding to a double does not move a size across a power of two that a
    double holds exactly. *)
Lemma nearest_double_lt_pow2 n j :
  0 <= n -> 0 <= j <= 53 -> (nearest_double n < 2 ^ j <-> n < 2 ^ j).
Proof.
  intros Hn Hj. rewrite nearest_double_nonneg by exact Hn.
  assert (2 ^ j <= 2 ^ 53) as Hpow by (apply Z.pow_le_mono_r; lia).
  destruct (Z.lt_ge_cases n (2 ^ 53)) as [Hsmall|Hlarge].
  - now rewrite round53_small by lia.
  - pose proof (round53_large n Hlarge). lia.
Qed.

Lemma nearest_double_nonneg_value n : 0 <= n -> 0 <= nearest_double n.
Proof.
  intros H0. rewrite nearest_double_nonneg by exact H0.
  destruct (Z.lt_ge_cases n (2 ^ 53)) as [Hsmall|Hlarge].
  - rewrite round53_small by lia. lia.
  - pose proof (round53_large n Hlarge). pose proof (Z.pow_pos_nonneg 2 53). lia.
Qed.

Lemma nearest_double_bound n :
  0 <= n < 2 ^ 1024 -> 0 <= nearest_double n <= 2 ^ 1024.
Proof.
  intros [H0 Hn]. split; [now apply nearest_double_nonneg_value|].
  rewrite nearest_double_nonneg by exact H0.
  destruct (Z.lt_ge_cases n (2 ^ 53)) as [Hsmall|Hlarge].
  - rewrite round53_small by lia. lia.
  - pose proof (round53_large n Hlarge) as [Hlo Hhi].
    assert (0 < n) by (pose proof (Z.pow_pos_nonneg 2 53); lia).
    assert (Z.log2 n < 1024) by (apply Z.log2_lt_pow2; lia).
    assert (2 ^ (Z.log2 n + 1) <= 2 ^ 1024) by (apply Z.pow_le_mono_r; lia).
    lia.
Qed.

(** Every size below [2^1024] is within the range of the true division. *)
Lemma nearest_double_in_range n :
  0 <= n < 2 ^ 1024 -> nearest_double n < 2 ^ 1034.
Proof.
  intros Hn. pose proof (nearest_double_bound n Hn).
  assert (2 ^ 1024 < 2 ^ 1034) by (apply Z.pow_lt_mono_r; lia). lia.
Qed.

(** The rounding of a size beyond 53 bits, written out. *)
Lemma round53_rounded n :
  2 ^ 53 <= n ->
  exists s,
    s = Z.log2 n - 52 /\ 0 < s
    /\ 2 ^ 52 * 2 ^ s <= n < 2 ^ 53 * 2 ^ s
    /\ round53 n = round_half_even n (2 ^ s) * 2 ^ s.
Proof.
  intros H53. unfold round53.
  assert (0 < n) as Hpos by (pose proof (Z.pow_pos_nonneg 2 53); lia).
  assert (53 <= Z.log2 n) as Hlog by (apply Z.log2_le_pow2; lia).
  destruct (Z.log2 n + 1 <=? 53) eqn:Hb; [apply Z.leb_le in Hb; lia|].
  exists (Z.log2 n - 52). split; [reflexivity|]. split; [lia|].
  pose proof (Z.log2_spec n Hpos) as [Hlo Hhi].
  replace (Z.log2 n) with (52 + (Z.log2 n - 52)) in Hlo at 1 by lia.
  replace (Z.succ (Z.log2 n)) with (53 + (Z.log2 n - 52)) in Hhi by lia.
  rewrite Z.pow_add_r in Hlo, Hhi by lia.
  split; [lia|].
  replace (Z.log2 n + 1 - 53) with (Z.log2 n - 52) by lia.
  apply Z.shiftl_mul_pow2. lia.
Qed.

(** Where the first division leaves the range of a double: from
    [2^1034 - 2^980] on, the size rounds to [2^1034]. *)
Lemma nearest_double_overflow_threshold n :
  0 <= n -> (nearest_double n < 2 ^ 1034 <-> n < 2 ^ 1034 - 2 ^ 980).
Proof.
  intros Hn. rewrite nearest_double_nonneg by exact Hn.
  assert (Hc1 : 2 ^ 53 < 2 ^ 1034 - 2 ^ 980) by reflexivity.
  destruct (Z.lt_ge_cases n (2 ^ 53)) as [Hsmall|Hlarge].
  { rewrite round53_small by lia. split; intros _; lia. }
  destruct (round53_rounded n Hlarge) as (s & Hs & Hspos & [Hlo Hhi] & ->).
  assert (0 < 2 ^ s) as Hp by (apply Z.pow_pos_nonneg; lia).
  destruct (round_half_even_near n (2 ^ s)) as [[Hq1 Hq2] _]; [lia | exact Hp |].
  assert (Hq0 : 2 ^ 52 <= n / 2 ^ s < 2 ^ 53).
  { split; [apply Z.div_le_lower_bound | apply Z.div_lt_upper_bound]; lia. }
  destruct (Z.lt_total s 981) as [Hlt | [Heq | Hgt]].
  - (* the rounded size stays below 2^1033 *)
    assert (2 ^ s <= 2 ^ 980) by (apply Z.pow_le_mono_r; lia).
    assert (2 ^ 1034 = 2 ^ 54 * 2 ^ 980) as E1 by reflexivity.
    assert (2 ^ 1034 - 2 ^ 980 = (2 ^ 54 - 1) * 2 ^ 980) as E2 by reflexivity.
    rewrite E2, E1. split; intros _; nia.
  - subst s. rewrite Heq in *. clear Heq.
    assert (2 ^ 1034 = 2 ^ 53 * 2 ^ 981) as E1 by reflexivity.
    assert (2 ^ 1034 - 2 ^ 980 = 2 ^ 53 * 2 ^ 981 - 2 ^ 980) as E2 by reflexivity.
    assert (2 ^ 981 = 2 * 2 ^ 980) as E3 by reflexivity.
    rewrite E2, E1.
    pose proof (Z.div_mod n (2 ^ 981) ltac:(lia)) as Hdiv.
    pose proof (Z.mod_pos_bound n (2 ^ 981) Hp) as Hmod.
    unfold round_half_even in *.
    destruct (Z.eq_dec (n / 2 ^ 981) (2 ^ 53 - 1)) as [Htop|Hnot].
    + rewrite Htop in *.
      change (Z.even (2 ^ 53 - 1)) with false.
      destruct (2 * (n mod 2 ^ 981) <? 2 ^ 981) eqn:H1.
      * apply Z.ltb_lt in H1. split; intros _; nia.
      * apply Z.ltb_ge in H1.
        assert (Hup : (if 2 ^ 981 <? 2 * (n mod 2 ^ 981) then 2 ^ 53 - 1 + 1
                       else 2 ^ 53 - 1 + 1) = 2 ^ 53)
          by (destruct (2 ^ 981 <? 2 * (n mod 2 ^ 981)); reflexivity).
        rewrite Hup. split; intros Hgoal; nia.
    + assert (n / 2 ^ 981 <= 2 ^ 53 - 2) by lia.
      split; intros _; nia.
  - (* the size is at least 2^1034 *)
    assert (2 ^ 982 <= 2 ^ s) by (apply Z.pow_le_mono_r; lia).
    assert (2 ^ 1034 = 2 ^ 52 * 2 ^ 982) as E1 by reflexivity.
    assert (0 < 2 ^ 980) by reflexivity.
    rewrite E1. split; intros Hgoal; nia.
Qed.

Lemma format_size_from_shown unit rest d e :
  0 <= d -> d < 1024 * 2 ^ e ->
  format_size_from (unit :: rest) (PyFloat d e)
  = Ok (render_hundredths false (hundredths d e) ++ " " ++ unit).
Proof.
  intros H0 H. cbn [format_size_from lt_1024].
  apply Z.ltb_lt in H. rewrite H. cbn [format_2f outcome_map outcome_bind].
  unfold format_float_2f. apply Z.ltb_ge in H0. now rewrite H0.
Qed.

Lemma format_size_from_divided unit rest d e :
  1024 * 2 ^ e <= d ->
  format_size_from (unit :: rest) (PyFloat d e) = format_size_from rest (PyFloat d (e + 10)).
Proof.
  intros H. cbn [format_size_from lt_1024].
  apply Z.ltb_ge in H. now rewrite H.
Qed.

Lemma format_size_from_last d e :
  0 <= d ->
  format_size_from [] (PyFloat d e) = Ok (render_hundredths false (hundredths d e) ++ " PB").
Proof.
  intros H0. cbn [format_size_from format_2f outcome_map outcome_bind].
  unfold format_float_2f. apply Z.ltb_ge in H0. now rewrite H0.
Qed.

Lemma hundredths_near d e :
  0 <= d -> 0 <= e -> 2 * Z.abs (100 * d - hundredths d e * 2 ^ e) <= 2 ^ e.
Proof.
  intros Hd He. unfold hundredths. rewrite (Z.abs_eq d) by exact Hd.
  apply round_half_even_near; [lia|]. apply Z.pow_pos_nonneg; lia.
Qed.

Lemma format_size_from_int_divided unit rest n :
  1024 <= n -> nearest_double n < 2 ^ 1034 ->
  format_size_from (unit :: rest) (PyInt n)
  = format_size_from rest (PyFloat (nearest_double n) 10).
Proof.
  intros Hn Hd. pose proof (nearest_double_nonneg_value n ltac:(lia)) as Hd0.
  cbn [format_size_from lt_1024 truediv_1024].
  assert (Hlt : (n <? 1024) = false) by (apply Z.ltb_ge; lia).
  assert (Hov : (2 ^ 1034 <=? Z.abs (nearest_double n)) = false).
  { apply Z.leb_gt. rewrite Z.abs_eq by lia. exact Hd. }
  now rewrite Hlt, Hov.
Qed.

(** Beyond the range of a double the first division raises. *)
Lemma format_size_from_int_overflow unit rest n :
  0 <= n -> 2 ^ 1034 <= nearest_double n ->
  format_size_from (unit :: rest) (PyInt n) = Raise OverflowError.
Proof.
  intros Hn Hd.
  assert (1024 <= n).
  { destruct (Z.lt_ge_cases n 1024) as [Hsmall|]; [|assumption].
    assert (n < 2 ^ 53) by (assert (1024 < 2 ^ 53) by reflexivity; lia).
    rewrite nearest_double_exact in Hd by lia.
    assert (1024 < 2 ^ 1034) by reflexivity. lia. }
  cbn [format_size_from lt_1024 truediv_1024].
  assert (Hlt : (n <? 1024) = false) by (apply Z.ltb_ge; lia).
  assert (Hov : (2 ^ 1034 <=? Z.abs (nearest_double n)) = true).
  { apply Z.leb_le. rewrite Z.abs_eq; [exact Hd|]. now apply nearest_double_nonneg_value. }
  now rewrite Hlt, Hov.
Qed.

(** What [format_size] returns for a size that is shown after [k] divisions. *)
Lemma format_size_after n k :
  0 <= n -> nearest_double n < 2 ^ 1034 -> (k <= 5)%nat ->
  ((0 < k)%nat -> 1024 ^ Z.of_nat k <= n) ->
  ((k < 5)%nat -> n < 1024 * 1024 ^ Z.of_nat k) ->
  format_size n
  = Ok (render_hundredths false (hundredths (nearest_double n) (10 * Z.of_nat k))
        ++ " " ++ unit_name k).
Proof.
  intros Hn Hd Hk Hlo Hhi.
  pose proof (nearest_double_nonneg_value n Hn) as Hd0.
  unfold format_size, size_units.
  destruct k as [|k].
  { (* bytes: the [int] itself is formatted *)
    specialize (Hhi ltac:(lia)). change (1024 * 1024 ^ Z.of_nat 0) with 1024 in Hhi.
    cbn [format_size_from lt_1024].
    assert (Hlt : (n <? 1024) = true) by (apply Z.ltb_lt; lia). rewrite Hlt.
    cbn [format_2f]. unfold float_of_int.
    assert (n < 2 ^ 53) by (assert (1024 < 2 ^ 53) by reflexivity; lia).
    rewrite nearest_double_exact by lia.
    assert (Hov : (2 ^ 1024 <=? Z.abs n) = false).
    { apply Z.leb_gt. assert (1024 < 2 ^ 1024) by reflexivity. lia. }
    rewrite Hov.
    cbn [outcome_map outcome_bind]. unfold format_float_2f.
    assert (Hneg : (n <? 0) = false) by (apply Z.ltb_ge; lia). rewrite Hneg.
    reflexivity. }
  specialize (Hlo ltac:(lia)).
  assert (1024 <= n) as H1024.
  { assert (1024 ^ 1 <= 1024 ^ Z.of_nat (S k)) by (apply Z.pow_le_mono_r; lia). lia. }
  rewrite format_size_from_int_divided by assumption.
  assert (Hcmp : forall j, 0 <= j <= 53 ->
            (2 ^ j <= n -> 2 ^ j <= nearest_double n)
            /\ (n < 2 ^ j -> nearest_double n < 2 ^ j)).
  { intros j Hj. pose proof (nearest_double_lt_pow2 n j ltac:(lia) Hj). lia. }
  pose proof (Hcmp 20 ltac:(lia)) as [G20 L20].
  pose proof (Hcmp 30 ltac:(lia)) as [G30 L30].
  pose proof (Hcmp 40 ltac:(lia)) as [G40 L40].
  pose proof (Hcmp 50 ltac:(lia)) as [G50 L50].
  assert (Hpow : forall j, (j <= 5)%nat -> 1024 ^ Z.of_nat j = 2 ^ (10 * Z.of_nat j)).
  { intros j Hj. do 6 (destruct j as [|j]; [reflexivity|]). lia. }
  rewrite (Hpow (S k)) in Hlo by lia.
  assert (Hhi' : (S k < 5)%nat -> n < 2 ^ (10 * Z.of_nat (S (S k)))).
  { intros Hlt. specialize (Hhi Hlt). rewrite (Hpow (S k)) in Hhi by lia.
    replace (10 * Z.of_nat (S (S k))) with (10 + 10 * Z.of_nat (S k)) by lia.
    rewrite Z.pow_add_r by lia. exact Hhi. }
  clear Hhi Hpow.
  destruct k as [|[|[|[|[|k]]]]]; [| | | | |lia];
    cbn [Z.of_nat Pos.of_succ_nat Pos.succ Z.mul Pos.mul Pos.add] in Hlo, Hhi' |- *;
    repeat first
      [ rewrite format_size_from_shown by (first [exact Hd0 | specialize (Hhi' ltac:(lia)); lia])
      | rewrite format_size_from_last by exact Hd0
      | rewrite format_size_from_divided by lia ];
    reflexivity.
Qed.

Lemma pow_1024 k : 1024 ^ Z.of_nat k = 2 ^ (10 * Z.of_nat k).
Proof.
  change 1024 with (2 ^ 10). rewrite <- Z.pow_mul_r by lia. reflexivity.
Qed.

(** C5, as stated, fails at 1048575 bytes: the unit chosen is KB, and the
    value displayed with it is 1024.00, which is not below 1024. *)
Lemma format_size_shows_1024_kb :
  format_size 1048575 = Ok "1024.00 KB"
  /\ ~ (exists k, (k < 5)%nat /\ shows_after 1048575 k
                  /\ shown_after 1048575 k < 1024 * 100).
Proof.
  split; [reflexivity|].
  intros (k & Hk & Hshow & Hlt).
  destruct k as [|[|[|[|[|k]]]]]; [| | | | |lia];
    vm_compute in Hshow, Hlt; discriminate.
Qed.

Lemma format_size_overflow : format_size (2 ^ 1100) = Raise OverflowError.
Proof. vm_compute. reflexivity. Qed.

(** C5, amended: for a size [0 <= n < 2^1034 - 2^980], [format_size] returns
    the value and the unit reached after [k <= 5] divisions by 1024, where
    [k] is the least number for which the running value [n / 1024^k] is below
    1024, and 5 (PB) for every [n >= 1024^5]; the value is the running value,
    taken from the double nearest to [n] (which is [n] below [2^53]), rounded
    to the nearest hundredth.  The comparison is on the running value, not on
    the rounded one.  From [2^1034 - 2^980] on, the first division leaves the
    range of a double and [format_size] raises [OverflowError].
    [format_size 0], [1536] and [1073741824] are as the specification lists
    them. *)
Theorem format_size_unit_and_value :
  (forall n, 0 <= n ->
     (2 ^ 1034 - 2 ^ 980 <= n -> format_size n = Raise OverflowError)
     /\ (n < 2 ^ 1034 - 2 ^ 980 ->
         exists k,
           (k <= 5)%nat
           /\ shows_after n k
           /\ 2 * Z.abs (100 * nearest_double n - shown_after n k * 1024 ^ Z.of_nat k)
              <= 1024 ^ Z.of_nat k
           /\ ((k < 5)%nat -> n < 1024 * 1024 ^ Z.of_nat k)
           /\ ((0 < k)%nat -> 1024 ^ Z.of_nat k <= n)
           /\ (1024 ^ 5 <= n -> k = 5%nat)
           /\ (n < 2 ^ 53 -> nearest_double n = n)))
  /\ format_size 0 = Ok "0.00 B"
  /\ format_size 1536 = Ok "1.50 KB"
  /\ format_size 1073741824 = Ok "1.00 GB".
Proof.
  split; [|repeat split; reflexivity].
  intros n Hn.
  pose proof (nearest_double_overflow_threshold n Hn) as Hrange.
  split.
  { intros Hbig. apply format_size_from_int_overflow; [exact Hn|].
    destruct (Z.lt_ge_cases (nearest_double n) (2 ^ 1034)) as [Hlt|Hge]; [|exact Hge].
    apply Hrange in Hlt. lia. }
  intros Hsmall. assert (Hd : nearest_double n < 2 ^ 1034) by now apply Hrange.
  assert (exists k, (k <= 5)%nat
                    /\ ((k < 5)%nat -> n < 1024 * 1024 ^ Z.of_nat k)
                    /\ ((0 < k)%nat -> 1024 ^ Z.of_nat k <= n)) as (k & Hk & Hhi & Hlo).
  { destruct (Z.lt_ge_cases n 1024); [exists 0%nat; repeat split; cbn; lia|].
    destruct (Z.lt_ge_cases n (1024 ^ 2)); [exists 1%nat; repeat split; cbn; lia|].
    destruct (Z.lt_ge_cases n (1024 ^ 3)); [exists 2%nat; repeat split; cbn; lia|].
    destruct (Z.lt_ge_cases n (1024 ^ 4)); [exists 3%nat; repeat split; cbn; lia|].
    destruct (Z.lt_ge_cases n (1024 ^ 5)); [exists 4%nat; repeat split; cbn; lia|].
    exists 5%nat; repeat split; cbn; lia. }
  exists k. split; [exact Hk|]. split; [now apply format_size_after|].
  split; [|split; [exact Hhi|split; [exact Hlo|split]]].
  - unfold shown_after. rewrite pow_1024.
    apply hundredths_near; [|lia].
    now apply nearest_double_nonneg_value.
  - intros H5. destruct (Nat.eq_dec k 5) as [E|E]; [exact E|].
    specialize (Hhi ltac:(lia)).
    assert (1024 * 1024 ^ Z.of_nat k <= 1024 ^ 5); [|lia].
    change (1024 ^ 5) with (1024 * 1024 ^ 4).
    apply Z.mul_le_mono_nonneg_l; [lia|]. apply Z.pow_le_mono_r; lia.
  - intros H53. apply nearest_double_exact. lia.
Qed.

Lemma format_size_unit_and_value_witness :
  exists k,
    (k <= 5)%nat
    /\ shows_after 5242880 k
    /\ 2 * Z.abs (100 * nearest_double 5242880 - shown_after 5242880 k * 1024 ^ Z.of_nat k)
       <= 1024 ^ Z.of_nat k
    /\ ((k < 5)%nat -> 5242880 < 1024 * 1024 ^ Z.of_nat k)
    /\ ((0 < k)%nat -> 1024 ^ Z.of_nat k <= 5242880)
    /\ (1024 ^ 5 <= 5242880 -> k = 5%nat)
    /\ (5242880 < 2 ^ 53 -> nearest_double 5242880 = 5242880).
Proof.
  apply (proj1 format_size_unit_and_value 5242880).
  - intro H; discriminate H.
  - reflexivity.
Defined.

(** ** The pipeline: which events a computation can emit *)

Section Emits.

Context {A B : Type}.
Variable stages : list stage.

Lemma emits_ret (a : A) : emits stages (ret a).
Proof. intros env. constructor. Qed.

Lemma emits_query (answer : Env -> outcome A) : emits stages (query answer).
Proof. intros env. constructor. Qed.

Lemma emits_lift (o : outcome A) : emits stages (lift o).
Proof. apply emits_query. Qed.

Lemma emits_call ev (answer : Env -> outcome A) :
  in_stages stages ev = true -> emits stages (call ev answer).
Proof. intros H env. repeat constructor. exact H. Qed.

Lemma emits_bind (m : M A) (k : A -> M B) :
  emits stages m -> (forall a, emits stages (k a)) -> emits stages (bind m k).
Proof.
  intros Hm Hk env. specialize (Hm env). unfold trace, bind in *.
  destruct (m env) as [t1 [a|e]]; [|exact Hm].
  specialize (Hk a env). unfold trace in Hk.
  destruct (k a env) as [t2 r2]. apply Forall_app. now split.
Qed.

Lemma emits_try_except (m : M A) (h : exn -> M A) :
  emits stages m -> (forall e, emits stages (h e)) -> emits stages (try_except m h).
Proof.
  intros Hm Hh env. specialize (Hm env). unfold trace, try_except in *.
  destruct (m env) as [t1 [a|e]]; [exact Hm|].
  specialize (Hh e env). unfold trace in Hh.
  destruct (h e env) as [t2 r2]. apply Forall_app. now split.
Qed.

Lemma emits_try_finally (m : M A) (f : M unit) :
  emits stages m -> emits stages f -> emits stages (try_finally m f).
Proof.
  intros Hm Hf env. specialize (Hm env). specialize (Hf env).
  unfold trace, try_finally in *.
  destruct (m env) as [t1 r]. destruct (f env) as [t2 [u|e]];
    apply Forall_app; now split.
Qed.

End Emits.

Create HintDb emits.
#[local] Hint Resolve emits_ret emits_query emits_lift emits_bind emits_try_except
  emits_try_finally : emits.
#[local] Hint Extern 1 (emits _ (call _ _)) => apply emits_call; reflexivity : emits.
#[local] Hint Extern 1 (emits _ (logger _ _)) => apply emits_call; reflexivity : emits.
#[local] Hint Extern 1 (emits _ (status_edit_text _)) => apply emits_call; reflexivity : emits.

Lemma emits_weaken {A : Type} (small large : list stage) (m : M A) :
  incl small large -> emits small m -> emits large m.
Proof.
  intros Hincl Hm env. eapply Forall_impl; [|apply Hm].
  intros ev Hev. unfold in_stages in *. apply existsb_exists in Hev as (s & Hs & Heq).
  apply existsb_exists. exists s. split; [now apply Hincl | exact Heq].
Qed.

Ltac incl_stages :=
  let s := fresh "s" in
  let H := fresh "H" in
  intros s H; cbn in H |- *; intuition (subst; auto).

Lemma write_chunks_emits chunks :
  forall limit downloaded, emits [Download] (write_chunks limit downloaded chunks).
Proof.
  induction chunks as [|next rest IH]; intros limit downloaded; cbn [write_chunks].
  - auto with emits.
  - apply emits_bind; [auto with emits|]. intros chunk.
    apply emits_bind; [auto with emits|]. intros _.
    destruct (downloaded + 1 >=? limit); auto with emits.
Qed.

Lemma stream_media_emits message temp_path limit :
  emits [Download; Logging] (stream_media message temp_path limit).
Proof.
  unfold stream_media. apply emits_try_except; [|auto with emits].
  destruct (py_or _ _); [|auto with emits].
  apply emits_bind; [auto with emits|]. intros _.
  apply emits_bind; [|auto with emits].
  apply emits_try_finally; [|auto with emits].
  apply emits_bind; [auto with emits|]. intros chunks.
  eapply emits_weaken; [|apply write_chunks_emits].
  incl_stages.
Qed.

Lemma get_mediainfo_emits file_path :
  emits [Analysis; Logging] (get_mediainfo file_path).
Proof.
  unfold get_mediainfo. apply emits_try_except; [|auto with emits].
  apply emits_bind; [auto with emits|]. intros _.
  apply emits_bind; [auto with emits|]. intros [stdout stderr].
  destruct (truthy stderr); auto 6 with emits.
Qed.

Lemma create_telegraph_page_emits title content :
  emits [Publish; Logging] (create_telegraph_page title content).
Proof.
  unfold create_telegraph_page. apply emits_try_except; [|auto with emits].
  apply emits_bind; [auto with emits|]. intros response.
  destruct (if list_truthy response then _ else _); [|auto with emits].
  apply emits_bind; [auto with emits|]. intros status.
  destruct (negb _); auto with emits.
Qed.

Lemma report_stage_emits media mediainfo_output :
  emits [Chat; Publish; Logging] (report_stage media mediainfo_output).
Proof.
  unfold report_stage. destruct (negb _); [auto with emits|].
  apply emits_bind; [auto with emits|]. intros _.
  apply emits_bind; [auto with emits|]. intros html_content.
  apply emits_bind.
  - eapply emits_weaken; [|apply create_telegraph_page_emits].
    incl_stages.
  - intros url. destruct (opt_truthy url); auto with emits.
Qed.

Lemma pipeline_emits message media temp_path :
  emits [Chat; Download; Analysis; Publish; Logging] (pipeline message media temp_path).
Proof.
  unfold pipeline. apply emits_bind.
  - eapply emits_weaken; [|apply stream_media_emits].
    incl_stages.
  - intros downloaded_path. destruct (opt_truthy downloaded_path); [|auto with emits].
    apply emits_bind; [auto with emits|]. intros _.
    apply emits_bind.
    + eapply emits_weaken; [|apply get_mediainfo_emits].
      incl_stages.
    + intros out. eapply emits_weaken; [|apply report_stage_emits].
      incl_stages.
Qed.

(** ** The pipeline: the shape of a request *)

Section Run.

Context {A B : Type}.
Variable env : Env.

Lemma trace_ret (a : A) : trace (ret a) env = [].
Proof. reflexivity. Qed.

Lemma result_ret (a : A) : result (ret a) env = Ok a.
Proof. reflexivity. Qed.

Lemma trace_query (answer : Env -> outcome A) : trace (query answer) env = [].
Proof. reflexivity. Qed.

Lemma result_query (answer : Env -> outcome A) : result (query answer) env = answer env.
Proof. reflexivity. Qed.

Lemma trace_call ev (answer : Env -> outcome A) : trace (call ev answer) env = [ev].
Proof. reflexivity. Qed.

Lemma result_call ev (answer : Env -> outcome A) : result (call ev answer) env = answer env.
Proof. reflexivity. Qed.

Lemma trace_bind (m : M A) (k : A -> M B) :
  trace (bind m k) env
  = (trace m env ++ match result m env with
                    | Ok a => trace (k a) env
                    | Raise _ => []
                    end)%list.
Proof.
  unfold trace, result, bind. destruct (m env) as [t1 [a|e]]; cbn.
  - now destruct (k a env).
  - now rewrite app_nil_r.
Qed.

Lemma result_bind (m : M A) (k : A -> M B) :
  result (bind m k) env
  = match result m env with
    | Ok a => result (k a) env
    | Raise e => Raise e
    end.
Proof.
  unfold result, bind. destruct (m env) as [t1 [a|e]]; cbn; [|reflexivity].
  now destruct (k a env).
Qed.

Lemma trace_try_except (m : M A) (h : exn -> M A) :
  trace (try_except m h) env
  = (trace m env ++ match result m env with
                    | Ok _ => []
                    | Raise e => trace (h e) env
                    end)%list.
Proof.
  unfold trace, result, try_except. destruct (m env) as [t1 [a|e]]; cbn.
  - now rewrite app_nil_r.
  - now destruct (h e env).
Qed.

Lemma result_try_except (m : M A) (h : exn -> M A) :
  result (try_except m h) env
  = match result m env with
    | Ok a => Ok a
    | Raise e => result (h e) env
    end.
Proof.
  unfold result, try_except. destruct (m env) as [t1 [a|e]]; cbn; [reflexivity|].
  now destruct (h e env).
Qed.

Lemma trace_try_finally (m : M A) (f : M unit) :
  trace (try_finally m f) env = (trace m env ++ trace f env)%list.
Proof.
  unfold trace, try_finally. destruct (m env) as [t1 r].
  now destruct (f env) as [t2 [u|e]].
Qed.

Lemma result_try_finally (m : M A) (f : M unit) :
  result (try_finally m f) env
  = match result f env with
    | Ok _ => result m env
    | Raise e => Raise e
    end.
Proof.
  unfold result, try_finally. destruct (m env) as [t1 r].
  now destruct (f env) as [t2 [u|e]].
Qed.

End Run.

Create Rewrite HintDb run.
#[local] Hint Rewrite @trace_ret @result_ret @trace_query @result_query @trace_call
  @result_call @trace_bind @result_bind @trace_try_except @result_try_except
  @trace_try_finally @result_try_finally : run.

(** Evaluates a computation built from the combinators, as far as the
    answers of the environment are known. *)
Ltac run :=
  unfold logger, status_edit_text, lift in *;
  autorewrite with run in *;
  cbn [app] in *.

Lemma stream_media_result message temp_path limit env :
  result (stream_media message temp_path limit) env = Ok None
  \/ result (stream_media message temp_path limit) env = Ok (Some temp_path).
Proof.
  unfold stream_media. destruct (py_or _ _); run; [|now left].
  destruct (aiofiles_open env temp_path); [|now left].
  destruct (file_close env); [|now left].
  destruct (result (write_chunks _ _ _) env); [now right | now left].
Qed.

Lemma trace_cleanup temp_path env :
  exists rest, trace (cleanup temp_path) env = Unlink temp_path :: rest
               /\ Forall (fun ev => in_stages [Logging] ev = true) rest.
Proof.
  unfold cleanup. run.
  destruct (os_unlink env temp_path); eexists; split; try reflexivity; repeat constructor.
Qed.

Lemma result_cleanup temp_path env : result (cleanup temp_path) env = Ok tt.
Proof.
  unfold cleanup. run. now destruct (os_unlink env temp_path) as [[]|e].
Qed.

Lemma trace_report_unexpected e env :
  trace (report_unexpected e) env
  = [Log ERROR "Error processing media: "; EditText msg_unexpected].
Proof. unfold report_unexpected. now run. Qed.

(** A request either never asks for a temporary file, or is refused one, or
    runs the pipeline on the file it got, removes the file, and reports an
    exception of the pipeline if there was one. *)
Lemma process_media_shape message env :
  Forall (fun ev => in_stages [Chat; Logging] ev = true) (trace (process_media message) env)
  \/ (exists e rest,
        trace (process_media message) env
        = ReplyText msg_processing :: NamedTemporaryFile (Raise e) :: rest
        /\ Forall (fun ev => in_stages [Chat; Logging] ev = true) rest)
  \/ (exists temp_path media,
        named_temporary_file env = Ok temp_path
        /\ get_media_from_message message = Some media
        /\ trace (process_media message) env
           = ReplyText msg_processing :: NamedTemporaryFile (Ok temp_path)
             :: trace (pipeline message media temp_path) env
             ++ trace (cleanup temp_path) env
             ++ match result (pipeline message media temp_path) env with
                | Ok _ => []
                | Raise e => trace (report_unexpected e) env
                end).
Proof.
  unfold process_media. run.
  destruct (reply_text env msg_processing) as [[]|e]; [|left; repeat constructor].
  destruct (get_media_from_message message) as [media|]; run.
  - assert (Htrace : trace new_temp_file env = [NamedTemporaryFile (named_temporary_file env)])
      by reflexivity.
    assert (Hresult : result new_temp_file env = named_temporary_file env) by reflexivity.
    rewrite Htrace, Hresult. clear Htrace Hresult.
    destruct (named_temporary_file env) as [temp_path|e] eqn:Htemp; cbn [app].
    + right. right. exists temp_path, media. split; [reflexivity|]. split; [reflexivity|].
      run. rewrite result_cleanup, <- app_assoc. reflexivity.
    + right. left. exists e. eexists. split; [reflexivity|].
      rewrite trace_report_unexpected. repeat constructor.
  - left. destruct (edit_text env msg_no_media) as [[]|e]; [repeat constructor|].
    rewrite trace_report_unexpected. repeat constructor.
Qed.

(** The pipeline either stops before the analysis, or runs it on the
    temporary file and goes on with what the analysis returned. *)
Lemma pipeline_shape message media temp_path env :
  Forall (fun ev => in_stages [Chat; Download; Logging] ev = true)
         (trace (pipeline message media temp_path) env)
  \/ (trace (pipeline message media temp_path) env
      = (trace (stream_media message temp_path 1) env
         ++ EditText msg_analyzing
         :: trace (get_mediainfo temp_path) env
         ++ match result (get_mediainfo temp_path) env with
            | Ok out => trace (report_stage media out) env
            | Raise _ => []
            end)%list
      /\ result (pipeline message media temp_path) env
         = match result (get_mediainfo temp_path) env with
           | Ok out => result (report_stage media out) env
           | Raise e => Raise e
           end).
Proof.
  pose proof (stream_media_emits message temp_path 1 env) as Hs.
  assert (Hs' : Forall (fun ev => in_stages [Chat; Download; Logging] ev = true)
                       (trace (stream_media message temp_path 1) env)).
  { eapply Forall_impl; [|exact Hs]. intros ev. unfold in_stages. cbn.
    destruct (stage_of ev); cbn; auto. }
  clear Hs. unfold pipeline. run.
  destruct (stream_media_result message temp_path 1 env) as [-> | ->]; cbn [opt_truthy].
  - left. run. apply Forall_app. split; [exact Hs' | repeat constructor].
  - destruct (truthy temp_path); run.
    + destruct (edit_text env msg_analyzing) as [[]|e].
      * right. split; reflexivity.
      * left. apply Forall_app. split; [exact Hs' | repeat constructor].
    + left. apply Forall_app. split; [exact Hs' | repeat constructor].
Qed.

(** ** The analysis invoker *)

Lemma get_mediainfo_returns file_path env :
  exists text, result (get_mediainfo file_path) env = Ok text.
Proof.
  unfold get_mediainfo. run.
  destruct (create_subprocess_exec env "mediainfo" file_path); [|eauto].
  destruct (communicate env) as [[stdout stderr]|e]; [|eauto].
  destruct (truthy stderr); run.
  - destruct (bytes_decode env stderr); [|eauto].
    destruct (bytes_decode env stdout); eauto.
  - destruct (bytes_decode env stdout); eauto.
Qed.

Lemma get_mediainfo_tool_raises file_path env :
  (exists e, create_subprocess_exec env "mediainfo" file_path = Raise e)
  \/ (exists e, communicate env = Raise e) ->
  result (get_mediainfo file_path) env = Ok "".
Proof.
  intros H. unfold get_mediainfo. run.
  destruct (create_subprocess_exec env "mediainfo" file_path); [|reflexivity].
  destruct H as [[e H]|[e H]]; [discriminate|]. now rewrite H.
Qed.

Lemma subprocess_in_get_mediainfo prog path file_path env :
  In (SubprocessExec prog path) (trace (get_mediainfo file_path) env) ->
  prog = "mediainfo" /\ path = file_path.
Proof.
  unfold get_mediainfo. run.
  intros [H|H]; [now inversion H|]. exfalso.
  destruct (create_subprocess_exec env "mediainfo" file_path); cbn in H;
    [|intuition discriminate].
  destruct (communicate env) as [[stdout stderr]|e]; cbn in H; [|intuition discriminate].
  destruct H as [H|H]; [discriminate|].
  destruct (truthy stderr); run.
  - destruct (bytes_decode env stderr); cbn in H.
    + destruct H as [H|H]; [discriminate|].
      destruct (bytes_decode env stdout); cbn in H; intuition discriminate.
    + intuition discriminate.
  - destruct (bytes_decode env stdout); cbn in H; intuition discriminate.
Qed.

(** ** The request orchestrator *)

Lemma in_stages_weaken small large ev :
  incl small large -> in_stages small ev = true -> in_stages large ev = true.
Proof.
  intros Hincl Hev. unfold in_stages in *. apply existsb_exists in Hev as (s & Hs & Heq).
  apply existsb_exists. exists s. split; [now apply Hincl | exact Heq].
Qed.

(** When the analysis returns the empty text on the temporary file, a
    request either never starts the analysis, or sends the analysis-failure
    message right after it and then only closes. *)
Lemma process_media_analysis_empty message env :
  (forall p, named_temporary_file env = Ok p -> result (get_mediainfo p) env = Ok "") ->
  Forall (fun ev => in_stages [Chat; Temp; Download; Cleanup; Logging] ev = true)
         (trace (process_media message) env)
  \/ (exists p after,
        named_temporary_file env = Ok p
        /\ trace (process_media message) env
           = (ReplyText msg_processing :: NamedTemporaryFile (Ok p)
              :: trace (stream_media message p 1) env
              ++ EditText msg_analyzing
              :: trace (get_mediainfo p) env
              ++ EditText msg_analysis_failed :: after)%list
        /\ Forall (fun ev => closing_event ev = true) after
        /\ (edit_text env msg_analysis_failed = Ok tt ->
            Forall (fun ev => in_stages [Cleanup; Logging] ev = true) after)).
Proof.
  intros Hempty.
  destruct (process_media_shape message env)
    as [H | [(e & rest & -> & H) | (p & media & Hp & _ & ->)]].
  - left. eapply Forall_impl; [|exact H].
    intros ev. apply in_stages_weaken. incl_stages.
  - left. repeat constructor. eapply Forall_impl; [|exact H].
    intros ev. apply in_stages_weaken. incl_stages.
  - destruct (trace_cleanup p env) as (crest & Hc & Hcrest).
    destruct (pipeline_shape message media p env) as [H | [Ht Hr]].
    + left. repeat constructor. apply Forall_app. split.
      { eapply Forall_impl; [|exact H]. intros ev. apply in_stages_weaken. incl_stages. }
      rewrite Hc. apply Forall_app. split.
      { repeat constructor. eapply Forall_impl; [|exact Hcrest].
        intros ev. apply in_stages_weaken. incl_stages. }
      destruct (result (pipeline message media p) env); [constructor|].
      rewrite trace_report_unexpected. repeat constructor.
    + right. rewrite Ht, Hr, (Hempty p Hp). unfold report_stage. cbn [truthy negb String.eqb].
      run. exists p. eexists. split; [exact Hp|]. split.
      { rewrite <- !app_assoc. cbn [app]. rewrite <- !app_assoc. cbn [app]. reflexivity. }
      rewrite Hc. split.
      * apply Forall_app. split.
        { constructor; [reflexivity|]. eapply Forall_impl; [|exact Hcrest].
          intros ev. now destruct ev. }
        destruct (edit_text env msg_analysis_failed); [constructor|].
        rewrite trace_report_unexpected. repeat constructor.
      * intros ->. rewrite app_nil_r. constructor; [reflexivity|].
        eapply Forall_impl; [|exact Hcrest]. intros ev.
        apply in_stages_weaken. incl_stages.
Qed.

Lemma stage_of_member stages l ev :
  Forall (fun ev => in_stages stages ev = true) l -> In ev l -> in_stages stages ev = true.
Proof. intros H Hin. rewrite Forall_forall in H. now apply H. Qed.

(** C8: when the analysis invoker returns the empty string, the orchestrator
    calls the publisher at no point of the request, and once the analysis has
    run it sends the analysis-failure message next and then only closes: it
    removes the temporary file, and falls back to the unexpected-error
    handler only if sending the message raised. *)
Theorem empty_analysis_is_reported_not_published :
  forall env message,
    (forall p, named_temporary_file env = Ok p -> result (get_mediainfo p) env = Ok "") ->
    Forall (fun ev => in_stages [Publish] ev = false) (trace (process_media message) env)
    /\ forall prog path,
         In (SubprocessExec prog path) (trace (process_media message) env) ->
         exists before after,
           trace (process_media message) env
           = (before ++ trace (get_mediainfo path) env
              ++ EditText msg_analysis_failed :: after)%list
           /\ Forall (fun ev => closing_event ev = true) after.
Proof.
  intros env message Hempty.
  destruct (process_media_analysis_empty message env Hempty)
    as [H | (p & after & Hp & Htr & Hafter & _)].
  - split.
    + eapply Forall_impl; [|exact H]. intros ev. unfold in_stages. cbn.
      now destruct (stage_of ev).
    + intros prog path Hin. pose proof (stage_of_member _ _ _ H Hin) as Hs. discriminate Hs.
  - pose proof (stream_media_emits message p 1 env) as Hts.
    pose proof (get_mediainfo_emits p env) as Hta.
    rewrite Htr. split.
    + repeat constructor. apply Forall_app. split.
      { eapply Forall_impl; [|exact Hts]. intros ev. unfold in_stages. cbn.
        now destruct (stage_of ev). }
      constructor; [reflexivity|]. apply Forall_app. split.
      { eapply Forall_impl; [|exact Hta]. intros ev. unfold in_stages. cbn.
        now destruct (stage_of ev). }
      constructor; [reflexivity|].
      eapply Forall_impl; [|exact Hafter]. intros ev. now destruct ev.
    + intros prog path Hin.
      assert (path = p) as ->.
      { destruct Hin as [Hin|[Hin|Hin]]; try discriminate.
        apply in_app_or in Hin as [Hin|[Hin|Hin]]; try discriminate.
        - pose proof (stage_of_member _ _ _ Hts Hin) as Hs. discriminate Hs.
        - apply in_app_or in Hin as [Hin|[Hin|Hin]]; try discriminate.
          + now apply subprocess_in_get_mediainfo in Hin.
          + rewrite Forall_forall in Hafter. specialize (Hafter _ Hin). discriminate Hafter. }
      exists (ReplyText msg_processing :: NamedTemporaryFile (Ok p)
              :: trace (stream_media message p 1) env ++ [EditText msg_analyzing])%list, after.
      split; [|exact Hafter].
      cbn [app]. now rewrite <- app_assoc.
Qed.

Lemma empty_analysis_is_reported_not_published_witness :
  Forall (fun ev => in_stages [Publish] ev = false)
         (trace (process_media video_message) (answering_env ""))
  /\ In (EditText msg_analysis_failed) (trace (process_media video_message) (answering_env "")).
Proof.
  assert (Hempty : forall p, named_temporary_file (answering_env "") = Ok p ->
                             result (get_mediainfo p) (answering_env "") = Ok "")
    by (intros p _; reflexivity).
  destruct (empty_analysis_is_reported_not_published (answering_env "") video_message Hempty)
    as [Hnone Hreport].
  split; [exact Hnone|].
  destruct (Hreport "mediainfo" "/tmp/tmpa1b2c3") as (before & after & Htr & _).
  - vm_compute. tauto.
  - rewrite Htr. apply in_or_app. right. apply in_or_app. right. now left.
Defined.

(** C9: whenever a request has been given its temporary file, it asks for
    that file to be removed later in the same request, whatever the
    collaborators answer or raise: on success, on each reported failure and
    on an unexpected exception. *)
Theorem temp_file_is_always_removed :
  forall env message before after p,
    trace (process_media message) env = (before ++ NamedTemporaryFile (Ok p) :: after)%list ->
    In (Unlink p) after.
Proof.
  intros env message before after p Htr.
  assert (Hin : In (NamedTemporaryFile (Ok p)) (trace (process_media message) env)).
  { rewrite Htr. apply in_or_app. right. now left. }
  destruct (process_media_shape message env)
    as [H | [(e & rest & Hshape & H) | (p0 & media & Hp & _ & Hshape)]].
  - pose proof (stage_of_member _ _ _ H Hin) as Hs. discriminate Hs.
  - rewrite Hshape in Hin. destruct Hin as [Hin|[Hin|Hin]]; try discriminate.
    pose proof (stage_of_member _ _ _ H Hin) as Hs. discriminate Hs.
  - destruct (trace_cleanup p0 env) as (crest & Hc & Hcrest).
    assert (Hrest : Forall (fun ev => in_stages [Temp] ev = false)
              (trace (pipeline message media p0) env ++ trace (cleanup p0) env
               ++ match result (pipeline message media p0) env with
                  | Ok _ => []
                  | Raise e => trace (report_unexpected e) env
                  end)).
    { apply Forall_app. split.
      { eapply Forall_impl; [|apply pipeline_emits]. intros ev. unfold in_stages. cbn.
        now destruct (stage_of ev). }
      apply Forall_app. split.
      { rewrite Hc. constructor; [reflexivity|].
        eapply Forall_impl; [|exact Hcrest]. intros ev. unfold in_stages. cbn.
        now destruct (stage_of ev). }
      destruct (result (pipeline message media p0) env); [constructor|].
      rewrite trace_report_unexpected. repeat constructor. }
    rewrite Hshape in Htr.
    destruct before as [|ev0 before]; [discriminate|].
    injection Htr as _ Htr.
    destruct before as [|ev1 before].
    + injection Htr as Hp0 <-. subst p0.
      apply in_or_app. right. apply in_or_app. left. rewrite Hc. now left.
    + injection Htr as _ Htr. rewrite Htr in Hrest.
      apply Forall_app in Hrest as [_ Hrest]. inversion Hrest as [|? ? Hs _]. discriminate Hs.
Qed.

Lemma temp_file_is_always_removed_witness :
  In (Unlink "/tmp/tmpa1b2c3")
     [ OpenFile "/tmp/tmpa1b2c3"; NextChunk; WriteFile "chunk-1"; CloseFile;
       EditText msg_analyzing; SubprocessExec "mediainfo" "/tmp/tmpa1b2c3";
       Log ERROR "Error getting mediainfo: "; EditText msg_analysis_failed;
       Unlink "/tmp/tmpa1b2c3" ].
Proof.
  apply (temp_file_is_always_removed env_without_tool video_message
           [ReplyText msg_processing]).
  reflexivity.
Defined.

(** C10: the analysis invoker always returns a text and never raises; when
    starting the tool or talking to it raises, the text is empty.  A request
    whose analysis tool raises therefore sends the analysis-failure message,
    and, when that message is delivered, never the unexpected-error one. *)
Theorem get_mediainfo_never_raises :
  (forall env file_path, exists text, result (get_mediainfo file_path) env = Ok text)
  /\ (forall env file_path,
        tool_raises env file_path -> result (get_mediainfo file_path) env = Ok "")
  /\ (forall env message prog path,
        (forall p, tool_raises env p) ->
        In (SubprocessExec prog path) (trace (process_media message) env) ->
        In (EditText msg_analysis_failed) (trace (process_media message) env)
        /\ (edit_text env msg_analysis_failed = Ok tt ->
            ~ In (EditText msg_unexpected) (trace (process_media message) env))).
Proof.
  split; [exact (fun env file_path => get_mediainfo_returns file_path env)|].
  split; [exact (fun env file_path => get_mediainfo_tool_raises file_path env)|].
  intros env message prog path Hraises Hin.
  assert (Hempty : forall p, named_temporary_file env = Ok p ->
                             result (get_mediainfo p) env = Ok "")
    by (intros p _; apply get_mediainfo_tool_raises, Hraises).
  destruct (process_media_analysis_empty message env Hempty)
    as [H | (p & after & Hp & Htr & _ & Hafter)].
  - pose proof (stage_of_member _ _ _ H Hin) as Hs. discriminate Hs.
  - pose proof (stream_media_emits message p 1 env) as Hts.
    pose proof (get_mediainfo_emits p env) as Hta.
    rewrite Htr. split.
    + right. right. apply in_or_app. right. right. apply in_or_app. right. now left.
    + intros Hsent Hun. specialize (Hafter Hsent).
      destruct Hun as [Hun|[Hun|Hun]]; try discriminate.
      apply in_app_or in Hun as [Hun|[Hun|Hun]]; try discriminate.
      * pose proof (stage_of_member _ _ _ Hts Hun) as Hs. discriminate Hs.
      * apply in_app_or in Hun as [Hun|[Hun|Hun]]; try discriminate.
        -- pose proof (stage_of_member _ _ _ Hta Hun) as Hs. discriminate Hs.
        -- pose proof (stage_of_member _ _ _ Hafter Hun) as Hs. discriminate Hs.
Qed.

Lemma get_mediainfo_never_raises_witness :
  result (get_mediainfo "/tmp/tmpa1b2c3") env_without_tool = Ok ""
  /\ In (EditText msg_analysis_failed) (trace (process_media video_message) env_without_tool)
  /\ ~ In (EditText msg_unexpected) (trace (process_media video_message) env_without_tool).
Proof.
  assert (Hraises : forall p, tool_raises env_without_tool p)
    by (intros p; left; eexists; reflexivity).
  split.
  - exact (proj1 (proj2 get_mediainfo_never_raises) env_without_tool "/tmp/tmpa1b2c3"
             (Hraises "/tmp/tmpa1b2c3")).
  - destruct (proj2 (proj2 get_mediainfo_never_raises) env_without_tool video_message
                "mediainfo" "/tmp/tmpa1b2c3" Hraises) as [Hsent Hnot].
    + vm_compute. tauto.
    + split; [exact Hsent | exact (Hnot eq_refl)].
Defined.

(** * Further properties *)

(** ** Escaping *)

Lemma replace_char_same a new s :
  occurs a s = false -> replace s (String a "") new = s.
Proof.
  unfold replace. induction s as [|c s IH]; [reflexivity|].
  cbn [occurs replace_from]. intros H. apply orb_false_elim in H as [Hc Hs].
  cbn [String.prefix]. destruct (ascii_dec a c) as [->|Hne].
  - rewrite Ascii.eqb_refl in Hc. discriminate.
  - now rewrite IH.
Qed.

(** X1: [clean_value] leaves a text without angle brackets as it is, changes
    every text that has one, and escaping twice is escaping once: the
    ampersand is not escaped, so a text and its escaped form give the same
    result. *)
Theorem clean_value_idempotent :
  forall value,
    (occurs "<" value = false -> occurs ">" value = false -> clean_value value = value)
    /\ (occurs "<" value = true \/ occurs ">" value = true -> clean_value value <> value)
    /\ clean_value (clean_value value) = clean_value value.
Proof.
  intros value.
  assert (Hsame : forall v, occurs "<" v = false -> occurs ">" v = false -> clean_value v = v).
  { intros v Hlt Hgt. unfold clean_value.
    rewrite (replace_char_same "<") by exact Hlt. now apply replace_char_same. }
  split; [apply Hsame|]. split.
  - intros H Heq. destruct (clean_value_escaped value) as [Hlt Hgt].
    rewrite Heq in Hlt, Hgt. destruct H; congruence.
  - destruct (clean_value_escaped value) as [Hlt Hgt]. now apply Hsame.
Qed.

Lemma clean_value_idempotent_witness :
  clean_value "a<b>.mp4" <> "a<b>.mp4"
  /\ clean_value (clean_value "a<b>.mp4") = clean_value "a<b>.mp4".
Proof.
  split.
  - apply (proj1 (proj2 (clean_value_idempotent "a<b>.mp4"))). left. reflexivity.
  - apply (proj2 (proj2 (clean_value_idempotent "a<b>.mp4"))).
Defined.

(** ** The sections of a report *)

Lemma opened_section_not_text line : startswith (opened_section line) "Text" = false.
Proof.
  unfold opened_section. destruct (startswith line "Text") eqn:Hp; [|exact Hp].
  destruct line as [|c line]; [discriminate|].
  unfold replace, startswith in *. cbn [replace_from]. now rewrite Hp.
Qed.

Lemma content_of_cons raw body :
  content_of (raw :: body)
  = ((if truthy (strip raw) then [clean_value (strip raw)] else []) ++ content_of body)%list.
Proof. unfold content_of. cbn [map filter]. now destruct (truthy (strip raw)). Qed.

Lemma scan_plain_line st raw :
  plain raw ->
  scan_line st raw
  = if truthy (current_section st)
    then mk_scan (current_section st)
                 (section_content st
                  ++ if truthy (strip raw) then [clean_value (strip raw)] else [])
                 (html_parts st)
    else st.
Proof.
  intros Hplain. unfold scan_line. rewrite (matching_section_none _ _ Hplain).
  destruct (truthy (strip raw)); cbn [negb]; [reflexivity|].
  destruct (truthy (current_section st)); [|reflexivity].
  rewrite app_nil_r. now destruct st.
Qed.

(** With a section open: its block comes first, filled with the plain lines
    up to the next header line. *)
Lemma final_flush_open ls :
  forall st,
    truthy (current_section st) = true ->
    final_flush (scan_lines st ls)
    = (html_parts st
       ++ render_sections
            ((current_section st, section_content st ++ content_of (fst (group_lines ls)))
             :: sections_of ls))%list.
Proof.
  induction ls as [|raw rest IH]; intros st Hcur.
  - cbn [scan_lines fold_left group_lines fst sections_of snd map render_sections].
    unfold content_of. cbn [map filter]. rewrite app_nil_r.
    unfold final_flush. rewrite Hcur. cbn [andb].
    destruct (list_truthy (section_content st)); [reflexivity | now rewrite app_nil_r].
  - rewrite scan_lines_cons. unfold sections_of in *. cbn [group_lines].
    destruct (group_lines rest) as [leading groups] eqn:Hg. cbn [fst snd] in IH.
    destruct (starts_with_label (strip raw)) eqn:Hlabel.
    + destruct (scan_header st raw Hlabel) as [-> Ht].
      rewrite IH by (cbn [current_section]; now apply renamed_truthy).
      cbn [current_section section_content html_parts fst snd map app render_sections].
      unfold loop_flush. rewrite Hcur. unfold content_of at 2. cbn [map filter].
      rewrite app_nil_r, <- app_assoc. reflexivity.
    + rewrite (scan_plain_line st raw Hlabel), Hcur.
      rewrite IH by exact Hcur.
      cbn [current_section section_content html_parts fst snd].
      now rewrite content_of_cons, <- app_assoc.
Qed.

(** With no section open: the lines up to the first header line are lost. *)
Lemma final_flush_closed ls :
  forall st,
    current_section st = "" ->
    final_flush (scan_lines st ls)
    = (html_parts st ++ render_sections (sections_of ls))%list.
Proof.
  induction ls as [|raw rest IH]; intros st Hcur.
  - cbn. unfold final_flush. rewrite Hcur. cbn. now rewrite app_nil_r.
  - rewrite scan_lines_cons. unfold sections_of in *. cbn [group_lines].
    destruct (group_lines rest) as [leading groups] eqn:Hg. cbn [fst snd] in IH.
    destruct (starts_with_label (strip raw)) eqn:Hlabel.
    + destruct (scan_header st raw Hlabel) as [-> Ht].
      rewrite final_flush_open by (cbn [current_section]; now apply renamed_truthy).
      cbn [current_section section_content html_parts fst snd map app].
      unfold loop_flush. rewrite Hcur. cbn [truthy String.eqb negb].
      unfold sections_of. rewrite Hg. reflexivity.
    + rewrite (scan_plain_line st raw Hlabel), Hcur. cbn [truthy String.eqb negb].
      now rewrite IH.
Qed.

(** X2: the report is the header block, then one block for every header line
    of the text in the order of the text, then the disclaimer.  The block of
    a header line holds the non-blank plain lines that follow it up to the
    next header line, trimmed and escaped; every header line but the last
    gets its block even without such lines, the last one only with them.
    The lines before the first header line appear nowhere. *)
Theorem report_is_header_sections_disclaimer :
  forall out name size,
    parse_mediainfo out name size
    = outcome_map
        (fun size_text =>
           lines (header_block name size_text
                  ++ render_sections (sections_of (split_nl out))
                  ++ [disclaimer]))
        (format_size size).
Proof.
  intros out name size. unfold parse_mediainfo, outcome_map.
  destruct (format_size size) as [size_text|e]; [|reflexivity].
  cbn [outcome_bind]. unfold report_parts.
  rewrite final_flush_closed by reflexivity.
  cbn [initial_state html_parts]. now rewrite <- app_assoc.
Qed.

Lemma scan_lines_without_blank ls :
  forall st, scan_lines st (filter not_blank ls) = scan_lines st ls.
Proof.
  induction ls as [|raw rest IH]; intros st; [reflexivity|].
  cbn [filter]. unfold not_blank at 1.
  destruct (truthy (strip raw)) eqn:Ht.
  - rewrite !scan_lines_cons. apply IH.
  - rewrite scan_lines_cons, IH. f_equal. unfold scan_line. now rewrite Ht.
Qed.

(** X3: blank lines change nothing: two texts with the same non-blank
    lines give the same report; so a text and the same text without its
    blank lines do, and a text of blank lines only reports like the empty
    text. *)
Theorem blank_lines_do_not_matter :
  forall out out' name size,
    filter not_blank (split_nl out') = filter not_blank (split_nl out) ->
    parse_mediainfo out' name size = parse_mediainfo out name size.
Proof.
  intros out out' name size Hsame. unfold parse_mediainfo.
  destruct (format_size size) as [size_text|e]; [|reflexivity].
  cbn [outcome_bind]. unfold report_parts.
  rewrite <- (scan_lines_without_blank (split_nl out')).
  rewrite <- (scan_lines_without_blank (split_nl out)).
  now rewrite Hsame.
Qed.

Lemma blank_lines_do_not_matter_witness :
  parse_mediainfo (lines ["General"; "Format: MPEG-4"]) "clip.mp4" 0
  = parse_mediainfo (lines [""; "General"; "   "; "Format: MPEG-4"; ""]) "clip.mp4" 0
  /\ parse_mediainfo "" "clip.mp4" 0 = parse_mediainfo (lines [" "; ""; "  "]) "clip.mp4" 0.
Proof.
  split; apply blank_lines_do_not_matter; reflexivity.
Defined.

(** X4: the name of the open section never starts with Text, whatever the
    scanner has read: a header line that starts with Text opens its section
    under the renamed line.  The renaming written inside the two flushes
    therefore never applies, and a sub-heading shows the section name as it
    was stored. *)
Theorem open_section_is_never_named_text :
  forall name size_text ls,
    let st := scan_lines (initial_state name size_text) ls in
    startswith (current_section st) "Text" = false
    /\ section_block (current_section st) (section_content st)
       = [ "<h4>" ++ dict_get SECTION_ICONS (current_section st) "📄" ++ " "
           ++ current_section st ++ "</h4>";
           "<pre>"; join nl (section_content st); "</pre><br>" ].
Proof.
  intros name size_text ls st.
  assert (H : startswith (current_section st) "Text" = false).
  { subst st. generalize (initial_state name size_text) as st0,
      (eq_refl : startswith (current_section (initial_state name size_text)) "Text" = false).
    induction ls as [|raw rest IH]; intros st0 H0; [exact H0|].
    rewrite scan_lines_cons. apply IH. unfold scan_line.
    destruct (truthy (strip raw)); cbn [negb]; [|exact H0].
    destruct (matching_section SECTION_ICONS (strip raw)).
    - cbn [current_section]. apply opened_section_not_text.
    - now destruct (truthy (current_section st0)). }
  split; [exact H|]. unfold section_block. now rewrite H.
Qed.

(** ** Sizes *)

Lemma round_half_even_multiple q b : 0 < b -> round_half_even (q * b) b = q.
Proof.
  intros Hb. unfold round_half_even.
  rewrite Z.mod_mul, Z.div_mul by lia.
  assert (H : (2 * 0 <? b) = true) by (apply Z.ltb_lt; lia). now rewrite H.
Qed.

(** An integer of at most 53 significant bits, times a power of two, is a
    double. *)
Lemma round53_scaled m j : 0 <= m < 2 ^ 53 -> 0 <= j -> round53 (m * 2 ^ j) = m * 2 ^ j.
Proof.
  intros [Hm0 Hm] Hj. unfold round53.
  destruct (Z.log2 (m * 2 ^ j) + 1 <=? 53) eqn:Hb; [reflexivity|].
  apply Z.leb_gt in Hb. set (s := Z.log2 (m * 2 ^ j) + 1 - 53).
  assert (0 < 2 ^ j) as Hpj by (apply Z.pow_pos_nonneg; lia).
  assert (0 < m * 2 ^ j) as Hpos.
  { destruct (Z.eq_dec m 0) as [->|]; [cbn in Hb; lia | nia]. }
  assert (Z.log2 (m * 2 ^ j) < 53 + j) as Hlog.
  { apply Z.log2_lt_pow2; [exact Hpos|]. rewrite Z.pow_add_r by lia. nia. }
  assert (0 < s <= j) as Hs by (unfold s; lia).
  replace j with ((j - s) + s) at 1 by lia.
  rewrite Z.pow_add_r, Z.mul_assoc by lia.
  rewrite round_half_even_multiple by (apply Z.pow_pos_nonneg; lia).
  rewrite Z.shiftl_mul_pow2 by lia.
  rewrite <- Z.mul_assoc, <- Z.pow_add_r by lia. do 2 f_equal. lia.
Qed.

Lemma append_assoc_string (a b c : string) : ((a ++ b) ++ c = a ++ b ++ c)%string.
Proof. induction a as [|x a IH]; [reflexivity|]. cbn. now rewrite IH. Qed.

Lemma render_whole negative m :
  0 <= m ->
  render_hundredths negative (100 * m)
  = ((if negative then "-" else "") ++ decimal m ++ ".00")%string.
Proof.
  intros Hm. unfold render_hundredths.
  rewrite (Z.mul_comm 100 m), Z.div_mul, Z.mod_mul by lia. reflexivity.
Qed.

(** X5: a size that is a whole number [m] of a unit is shown as [m.00] with
    that unit: whole bytes below 1024, and [m * 1024^k] for [1 <= m < 1024];
    in PB every whole number up to [2^53] is shown, since nothing divides
    past PB. *)
Theorem format_size_whole_units :
  forall m k,
    (k <= 5)%nat ->
    0 <= m < 2 ^ 53 ->
    ((0 < k)%nat -> 1 <= m) ->
    ((k < 5)%nat -> m < 1024) ->
    format_size (m * 1024 ^ Z.of_nat k) = Ok (decimal m ++ ".00 " ++ unit_name k).
Proof.
  intros m k Hk Hm Hlo Hhi.
  assert (0 < 1024 ^ Z.of_nat k) as Hp by (apply Z.pow_pos_nonneg; lia).
  assert (Hd : nearest_double (m * 1024 ^ Z.of_nat k) = m * 1024 ^ Z.of_nat k).
  { rewrite nearest_double_nonneg by nia. rewrite pow_1024. apply round53_scaled; lia. }
  rewrite (format_size_after _ k).
  - unfold shown_after, hundredths. rewrite Hd, Z.abs_eq by nia.
    rewrite Z.mul_assoc, pow_1024, round_half_even_multiple
      by (apply Z.pow_pos_nonneg; lia).
    rewrite render_whole by lia. cbn [append].
    now rewrite !append_assoc_string.
  - nia.
  - rewrite Hd, pow_1024.
    assert (2 ^ (10 * Z.of_nat k) <= 2 ^ 50) by (apply Z.pow_le_mono_r; lia).
    assert (m * 2 ^ (10 * Z.of_nat k) < 2 ^ 53 * 2 ^ 50) by nia.
    assert (2 ^ 53 * 2 ^ 50 < 2 ^ 1034)
      by (rewrite <- Z.pow_add_r by lia; apply Z.pow_lt_mono_r; lia).
    lia.
  - exact Hk.
  - intros Hk0. specialize (Hlo Hk0). nia.
  - intros Hk5. specialize (Hhi Hk5). nia.
Qed.

Lemma format_size_whole_units_witness :
  format_size (2048 * 1024 ^ Z.of_nat 5) = Ok (decimal 2048 ++ ".00 " ++ unit_name 5).
Proof.
  apply format_size_whole_units.
  - repeat constructor.
  - split; [intro H; discriminate H | reflexivity].
  - intros _. intro H; discriminate H.
  - intros H. exfalso. apply (Nat.lt_irrefl 5 H).
Defined.

(** X6: a negative size is never scaled: whatever its magnitude (below
    [2^53]) it is shown in bytes, with a minus sign. *)
Theorem format_size_negative :
  forall n, - 2 ^ 53 < n < 0 -> format_size n = Ok ("-" ++ decimal (- n) ++ ".00 B").
Proof.
  intros n [Hlo Hneg]. unfold format_size, size_units. cbn [format_size_from lt_1024].
  assert (Hlt : (n <? 1024) = true) by (apply Z.ltb_lt; lia). rewrite Hlt.
  cbn [format_2f]. unfold float_of_int, nearest_double.
  rewrite Z.sgn_neg, (Z.abs_neq n) by lia.
  rewrite round53_small by lia.
  replace (-1 * - n) with n by lia.
  assert (Hov : (2 ^ 1024 <=? Z.abs n) = false).
  { apply Z.leb_gt. assert (2 ^ 53 < 2 ^ 1024) by (apply Z.pow_lt_mono_r; lia). lia. }
  rewrite Hov. cbn [outcome_map outcome_bind]. unfold format_float_2f, hundredths.
  assert (Hn : (n <? 0) = true) by (apply Z.ltb_lt; lia). rewrite Hn.
  rewrite Z.abs_neq by lia. change (2 ^ 0) with 1.
  replace (100 * - n) with ((100 * - n) * 1) by lia.
  rewrite round_half_even_multiple by lia.
  rewrite render_whole by lia. cbn [append].
  now rewrite !append_assoc_string.
Qed.

Lemma format_size_negative_witness :
  format_size (-5242880) = Ok ("-" ++ decimal 5242880 ++ ".00 B").
Proof.
  apply (format_size_negative (-5242880)). split; reflexivity.
Defined.

Lemma unit_steps n :
  0 <= n ->
  exists k, (k <= 5)%nat
            /\ ((k < 5)%nat -> n < 1024 * 1024 ^ Z.of_nat k)
            /\ ((0 < k)%nat -> 1024 ^ Z.of_nat k <= n).
Proof.
  intros Hn.
  destruct (Z.lt_ge_cases n 1024); [exists 0%nat; repeat split; cbn; lia|].
  destruct (Z.lt_ge_cases n (1024 ^ 2)); [exists 1%nat; repeat split; cbn; lia|].
  destruct (Z.lt_ge_cases n (1024 ^ 3)); [exists 2%nat; repeat split; cbn; lia|].
  destruct (Z.lt_ge_cases n (1024 ^ 4)); [exists 3%nat; repeat split; cbn; lia|].
  destruct (Z.lt_ge_cases n (1024 ^ 5)); [exists 4%nat; repeat split; cbn; lia|].
  exists 5%nat; repeat split; cbn; lia.
Qed.

Lemma format_size_returns n :
  0 <= n < 2 ^ 1034 - 2 ^ 980 -> exists text, format_size n = Ok text.
Proof.
  intros [Hn Hsmall]. destruct (unit_steps n Hn) as (k & Hk & Hhi & Hlo).
  eexists. apply (format_size_after n k); try assumption.
  now apply nearest_double_overflow_threshold.
Qed.

(** X7: what [format_size] displays is bounded: with a unit below PB the
    value shown is at most 1024.00, and with a unit above B it is at least
    1.00. *)
Theorem format_size_displayed_range :
  forall n,
    0 <= n -> nearest_double n < 2 ^ 1034 ->
    exists k c,
      (k <= 5)%nat
      /\ format_size n = Ok (render_hundredths false c ++ " " ++ unit_name k)
      /\ ((k < 5)%nat -> c <= 1024 * 100)
      /\ ((0 < k)%nat -> 1 * 100 <= c).
Proof.
  intros n Hn Hd.
  destruct (unit_steps n Hn) as (k & Hk & Hhi & Hlo).
  exists k, (shown_after n k). split; [exact Hk|].
  split; [now apply format_size_after|].
  pose proof (nearest_double_nonneg_value n Hn) as Hd0.
  assert (0 < 2 ^ (10 * Z.of_nat k)) as Hp by (apply Z.pow_pos_nonneg; lia).
  unfold shown_after, hundredths. rewrite Z.abs_eq by exact Hd0.
  destruct (round_half_even_near (100 * nearest_double n) (2 ^ (10 * Z.of_nat k)))
    as [[Hq1 Hq2] _]; [lia | exact Hp |].
  split.
  - intros Hk5. specialize (Hhi Hk5). rewrite pow_1024 in Hhi.
    assert (2 ^ (10 * Z.of_nat k) <= 2 ^ 40) by (apply Z.pow_le_mono_r; lia).
    assert (n < 2 ^ 53) by (assert (1024 * 2 ^ 40 < 2 ^ 53) by reflexivity; lia).
    rewrite nearest_double_exact in * by lia.
    assert (100 * n / 2 ^ (10 * Z.of_nat k) < 1024 * 100); [|lia].
    apply Z.div_lt_upper_bound; [exact Hp | nia].
  - intros Hk0. specialize (Hlo Hk0). rewrite pow_1024 in Hlo.
    assert (2 ^ (10 * Z.of_nat k) <= nearest_double n).
    { destruct (Z.lt_ge_cases (nearest_double n) (2 ^ (10 * Z.of_nat k))) as [Hlt|]; [|assumption].
      apply (proj1 (nearest_double_lt_pow2 n (10 * Z.of_nat k) Hn ltac:(lia))) in Hlt. lia. }
    assert (1 * 100 <= 100 * nearest_double n / 2 ^ (10 * Z.of_nat k)); [|lia].
    apply Z.div_le_lower_bound; [exact Hp | nia].
Qed.

Lemma format_size_displayed_range_witness :
  exists k c,
    (k <= 5)%nat
    /\ format_size 1048575 = Ok (render_hundredths false c ++ " " ++ unit_name k)
    /\ ((k < 5)%nat -> c <= 1024 * 100)
    /\ ((0 < k)%nat -> 1 * 100 <= c).
Proof.
  apply (format_size_displayed_range 1048575).
  - intro H; discriminate H.
  - reflexivity.
Defined.

(** X8: the report call of [process_media] fails in two cases only.  A
    media whose [file_name] is [None] raises [AttributeError], whatever the
    size, because the name is escaped before the size is formatted; with a
    name, the call raises [OverflowError] for a size from [2^1034 - 2^980]
    on, and returns a report for every text and every smaller size. *)
Theorem report_call_fails_on_name_or_size :
  forall out file_name size,
    0 <= size ->
    (file_name = None ->
     parse_mediainfo_call out file_name size = Raise AttributeError)
    /\ (forall name,
          file_name = Some name ->
          (size < 2 ^ 1034 - 2 ^ 980 ->
           exists html, parse_mediainfo_call out file_name size = Ok html)
          /\ (2 ^ 1034 - 2 ^ 980 <= size ->
              parse_mediainfo_call out file_name size = Raise OverflowError)).
Proof.
  intros out file_name size Hsize. split.
  - intros ->. reflexivity.
  - intros name ->. cbn [parse_mediainfo_call]. unfold parse_mediainfo. split.
    + intros Hsmall.
      destruct (format_size_returns size (conj Hsize Hsmall)) as (text & ->).
      cbn [outcome_bind]. eauto.
    + intros Hbig.
      assert (Hraise : format_size size = Raise OverflowError).
      { apply format_size_from_int_overflow; [exact Hsize|].
        destruct (Z.lt_ge_cases (nearest_double size) (2 ^ 1034)) as [Hlt|Hge]; [|exact Hge].
        apply nearest_double_overflow_threshold in Hlt; [lia | exact Hsize]. }
      now rewrite Hraise.
Qed.

Lemma report_call_fails_on_name_or_size_witness :
  parse_mediainfo_call "General" None 5242880 = Raise AttributeError
  /\ (exists html, parse_mediainfo_call "General" (Some "clip.mp4") 5242880 = Ok html)
  /\ parse_mediainfo_call "General" (Some "clip.mp4") (2 ^ 1034) = Raise OverflowError.
Proof.
  split; [|split].
  - apply (proj1 (report_call_fails_on_name_or_size "General" None 5242880
                    ltac:(intro H; discriminate H))).
    reflexivity.
  - apply (proj2 (report_call_fails_on_name_or_size "General" (Some "clip.mp4") 5242880
                    ltac:(intro H; discriminate H)) "clip.mp4" eq_refl).
    reflexivity.
  - apply (proj2 (report_call_fails_on_name_or_size "General" (Some "clip.mp4") (2 ^ 1034)
                    ltac:(intro H; discriminate H)) "clip.mp4" eq_refl).
    intro H; discriminate H.
Defined.

(** ** The sample extractor *)

(** The body of the [try] in [stream_media], for a message with media. *)
Lemma stream_media_unfold message temp_path limit media :
  own_media message = Some media ->
  let body :=
    bind (call (OpenFile temp_path) (fun env => aiofiles_open env temp_path)) (fun _ =>
    bind (try_finally
            (bind (query (fun env => Ok (app_stream_media env media limit)))
                  (fun chunks => write_chunks limit 0 chunks))
            (call CloseFile file_close)) (fun _ =>
    ret (Some temp_path))) in
  stream_media message temp_path limit
  = try_except body (fun e => bind (logger ERROR "Error streaming media: ") (fun _ => ret None)).
Proof. intros H. unfold stream_media, own_media in *. now rewrite H. Qed.

Lemma stream_media_body_emits temp_path limit media :
  emits [Download]
    (bind (call (OpenFile temp_path) (fun env => aiofiles_open env temp_path)) (fun _ =>
     bind (try_finally
             (bind (query (fun env => Ok (app_stream_media env media limit)))
                   (fun chunks => write_chunks limit 0 chunks))
             (call CloseFile file_close)) (fun _ =>
     ret (Some temp_path)))).
Proof.
  apply emits_bind; [auto with emits|]. intros _.
  apply emits_bind; [|auto with emits].
  apply emits_try_finally; [|auto with emits].
  apply emits_bind; [auto with emits|]. intros chunks. apply write_chunks_emits.
Qed.

(** X9: [stream_media] never raises.  It returns the path it was given or
    [None]; [None] without any call when the message carries no media
    itself, and otherwise [None] exactly when it logged a streaming error. *)
Theorem stream_media_returns_path_or_none :
  forall env message temp_path limit,
    (own_media message = None ->
     trace (stream_media message temp_path limit) env = []
     /\ result (stream_media message temp_path limit) env = Ok None)
    /\ (own_media message <> None ->
        (result (stream_media message temp_path limit) env = Ok (Some temp_path)
         /\ ~ In (Log ERROR "Error streaming media: ")
                 (trace (stream_media message temp_path limit) env))
        \/ (result (stream_media message temp_path limit) env = Ok None
            /\ In (Log ERROR "Error streaming media: ")
                  (trace (stream_media message temp_path limit) env))).
Proof.
  intros env message temp_path limit. split.
  - intros Hnone. unfold stream_media, own_media in *. rewrite Hnone. now run.
  - intros Hsome. destruct (own_media message) as [media|] eqn:Hmedia; [|congruence].
    rewrite (stream_media_unfold _ temp_path limit _ Hmedia).
    pose proof (stream_media_body_emits temp_path limit media env) as Hbody.
    set (body := bind _ _) in *.
    rewrite trace_try_except, result_try_except.
    assert (Hres : forall a, result body env = Ok a -> a = Some temp_path).
    { subst body. intros a. run.
      destruct (aiofiles_open env temp_path); [|discriminate].
      destruct (match file_close env with Ok _ => _ | Raise e => Raise e end);
        [|discriminate].
      congruence. }
    destruct (result body env) as [a|e].
    + left. rewrite (Hres a eq_refl), app_nil_r. split; [reflexivity|].
      intros Hin. pose proof (stage_of_member _ _ _ Hbody Hin) as Hs. discriminate Hs.
    + right. run. split; [reflexivity|]. apply in_or_app. right. now left.
Qed.

Lemma stream_media_returns_path_or_none_witness :
  result (stream_media video_message "/tmp/tmpa1b2c3" 1) (answering_env "General")
  = Ok (Some "/tmp/tmpa1b2c3").
Proof.
  destruct (proj2 (stream_media_returns_path_or_none (answering_env "General") video_message
                     "/tmp/tmpa1b2c3" 1)) as [[Hres _] | [Hres _]].
  - discriminate.
  - exact Hres.
  - discriminate Hres.
Defined.

Lemma write_chunks_bound chunks env :
  forall limit downloaded,
    Z.of_nat (List.length (filter is_write (trace (write_chunks limit downloaded chunks) env)))
    <= Z.max 1 (limit - downloaded)
    /\ Z.of_nat (List.length (filter is_next_chunk
                                (trace (write_chunks limit downloaded chunks) env)))
       <= Z.max 1 (limit - downloaded).
Proof.
  induction chunks as [|next rest IH]; intros limit downloaded; cbn [write_chunks].
  - rewrite trace_ret. cbn. lia.
  - rewrite trace_bind, trace_call, result_call.
    destruct next as [chunk|e]; [|cbn; lia].
    rewrite trace_bind, trace_call, result_call.
    destruct (file_write env chunk) as [[]|e]; [|cbn; lia].
    destruct (downloaded + 1 >=? limit) eqn:Hstop.
    + rewrite trace_ret. cbn. lia.
    + rewrite Z.geb_leb in Hstop. apply Z.leb_gt in Hstop.
      destruct (IH limit (downloaded + 1)) as [Hw Hn].
      cbn [app filter is_write is_next_chunk List.length] in *. lia.
Qed.

Lemma filter_length_app {A : Type} (f : A -> bool) (l1 l2 : list A) :
  List.length (filter f (l1 ++ l2)) = (List.length (filter f l1) + List.length (filter f l2))%nat.
Proof. now rewrite filter_app, length_app. Qed.

(** X10: the sample is bounded: [stream_media] asks for at most [limit]
    chunks and writes at most [limit] chunks (one chunk when [limit] is below
    one), however many the stream offers. *)
Theorem stream_media_writes_at_most_limit :
  forall env message temp_path limit,
    Z.of_nat (List.length (filter is_write (trace (stream_media message temp_path limit) env)))
    <= Z.max 1 limit
    /\ Z.of_nat (List.length (filter is_next_chunk
                                (trace (stream_media message temp_path limit) env)))
       <= Z.max 1 limit.
Proof.
  intros env message temp_path limit.
  destruct (own_media message) as [media|] eqn:Hmedia.
  - rewrite (stream_media_unfold _ temp_path limit _ Hmedia).
    pose proof (write_chunks_bound (app_stream_media env media limit) env limit 0) as Hb.
    replace (limit - 0) with limit in Hb by lia.
    run.
    set (tw := trace (write_chunks limit 0 (app_stream_media env media limit)) env) in *.
    set (rw := result (write_chunks limit 0 (app_stream_media env media limit)) env).
    destruct (aiofiles_open env temp_path); [|cbn; lia].
    destruct (file_close env); destruct rw;
      cbn [app filter is_write is_next_chunk];
      rewrite ?filter_length_app; cbn [filter is_write is_next_chunk List.length]; lia.
  - unfold stream_media, own_media in *. rewrite Hmedia. run. cbn. lia.
Qed.

Lemma write_chunks_events chunks env :
  forall limit downloaded,
    Forall (fun ev => is_write ev || is_next_chunk ev = true)
           (trace (write_chunks limit downloaded chunks) env).
Proof.
  induction chunks as [|next rest IH]; intros limit downloaded; cbn [write_chunks].
  - rewrite trace_ret. constructor.
  - rewrite trace_bind, trace_call, result_call. constructor; [reflexivity|].
    destruct next as [chunk|e]; [|constructor].
    rewrite trace_bind, trace_call, result_call. constructor; [reflexivity|].
    destruct (file_write env chunk) as [[]|e]; [|constructor].
    destruct (downloaded + 1 >=? limit); [rewrite trace_ret; constructor | apply IH].
Qed.

(** X11: a sample file that was opened is closed again, also when fetching
    or writing a chunk raises: after a successful [OpenFile] the trace holds
    the chunk events, then [CloseFile], then at most the error log. *)
Theorem stream_media_closes_the_file :
  forall env message temp_path limit media,
    own_media message = Some media ->
    aiofiles_open env temp_path = Ok tt ->
    exists chunk_events tail,
      trace (stream_media message temp_path limit) env
      = (OpenFile temp_path :: chunk_events ++ CloseFile :: tail)%list
      /\ Forall (fun ev => is_write ev || is_next_chunk ev = true) chunk_events
      /\ Forall (fun ev => in_stages [Logging] ev = true) tail.
Proof.
  intros env message temp_path limit media Hmedia Hopen.
  rewrite (stream_media_unfold _ temp_path limit _ Hmedia). run. rewrite Hopen. cbn [app].
  exists (trace (write_chunks limit 0 (app_stream_media env media limit)) env).
  set (rw := result (write_chunks limit 0 (app_stream_media env media limit)) env).
  destruct (file_close env) as [[]|e]; [destruct rw as [[]|e]|].
  - exists []. split; [now rewrite <- !app_assoc|].
    split; [apply write_chunks_events | constructor].
  - exists [Log ERROR "Error streaming media: "]. split; [now rewrite <- !app_assoc|].
    split; [apply write_chunks_events | repeat constructor].
  - exists [Log ERROR "Error streaming media: "]. split; [now rewrite <- !app_assoc|].
    split; [apply write_chunks_events | repeat constructor].
Qed.

Lemma stream_media_closes_the_file_witness :
  exists chunk_events tail,
    trace (stream_media video_message "/tmp/tmpa1b2c3" 1) env_without_tool
    = (OpenFile "/tmp/tmpa1b2c3" :: chunk_events ++ CloseFile :: tail)%list
    /\ Forall (fun ev => is_write ev || is_next_chunk ev = true) chunk_events
    /\ Forall (fun ev => in_stages [Logging] ev = true) tail.
Proof.
  apply (stream_media_closes_the_file env_without_tool video_message "/tmp/tmpa1b2c3" 1
           (mk_media (Some "clip.mp4") 5242880)); reflexivity.
Defined.

(** ** The analysis invoker and the publisher *)

(** X12: what the tool writes to stderr is logged, not treated as fatal: when
    the tool ran and its stderr is empty or can be decoded, [get_mediainfo]
    returns the decoded stdout (the empty text if stdout cannot be decoded),
    and it logs a warning exactly when stderr is not empty. *)
Theorem stderr_is_logged_not_fatal :
  forall env file_path stdout stderr,
    create_subprocess_exec env "mediainfo" file_path = Ok tt ->
    communicate env = Ok (stdout, stderr) ->
    (truthy stderr = false \/ exists text, bytes_decode env stderr = Ok text) ->
    result (get_mediainfo file_path) env
    = match bytes_decode env stdout with
      | Ok text => Ok text
      | Raise _ => Ok ""
      end
    /\ (In (Log WARNING "MediaInfo stderr: ") (trace (get_mediainfo file_path) env)
        <-> truthy stderr = true).
Proof.
  intros env file_path stdout stderr Hspawn Hcomm Hstderr.
  unfold get_mediainfo. run. rewrite Hspawn, Hcomm. cbn [app].
  destruct (truthy stderr) eqn:Ht; run.
  - destruct Hstderr as [Hfalse | [text Htext]]; [discriminate|]. rewrite Htext. cbn [app].
    split.
    + now destruct (bytes_decode env stdout).
    + split; [reflexivity|]. intros _. right. right. now left.
  - split.
    + now destruct (bytes_decode env stdout).
    + split; [|discriminate].
      intros [H|[H|H]]; try discriminate.
      destruct (bytes_decode env stdout); cbn in H; intuition discriminate.
Qed.

Lemma stderr_is_logged_not_fatal_witness :
  result (get_mediainfo "/tmp/tmpa1b2c3") env_with_warning = Ok "General"
  /\ In (Log WARNING "MediaInfo stderr: ")
        (trace (get_mediainfo "/tmp/tmpa1b2c3") env_with_warning).
Proof.
  destruct (stderr_is_logged_not_fatal env_with_warning "/tmp/tmpa1b2c3"
              "General" "E: file is truncated") as [Hresult Hlog].
  - reflexivity.
  - reflexivity.
  - right. exists "E: file is truncated". reflexivity.
  - split; [exact Hresult | apply Hlog; reflexivity].
Defined.

(** X13: stderr that cannot be decoded costs the whole analysis: the
    decoding error is caught like a failure of the tool, so [get_mediainfo]
    logs an error and returns the empty text whatever stdout holds. *)
Theorem undecodable_stderr_discards_stdout :
  forall env file_path stdout stderr e,
    create_subprocess_exec env "mediainfo" file_path = Ok tt ->
    communicate env = Ok (stdout, stderr) ->
    truthy stderr = true ->
    bytes_decode env stderr = Raise e ->
    result (get_mediainfo file_path) env = Ok ""
    /\ trace (get_mediainfo file_path) env
       = [ SubprocessExec "mediainfo" file_path; Communicate;
           Log ERROR "Error getting mediainfo: " ].
Proof.
  intros env file_path stdout stderr e Hspawn Hcomm Ht Hdecode.
  unfold get_mediainfo. run. rewrite Hspawn, Hcomm. cbn [app]. rewrite Ht. run.
  rewrite Hdecode. now split.
Qed.

Lemma undecodable_stderr_discards_stdout_witness :
  result (get_mediainfo "/tmp/tmpa1b2c3") env_with_bad_stderr = Ok "".
Proof.
  apply (undecodable_stderr_discards_stdout env_with_bad_stderr "/tmp/tmpa1b2c3"
           "General" (String (byte 255) "") (OtherError "UnicodeDecodeError"));
    reflexivity.
Defined.

Lemma create_page_event title content env t c :
  In (CreatePage t c) (trace (create_telegraph_page title content) env) ->
  t = slice_to 128 title /\ c = content.
Proof.
  unfold create_telegraph_page. run.
  intros [H|H]; [now inversion H|]. exfalso.
  destruct (telegraph_create_page env _ content) as [response|e]; cbn in H;
    [|intuition discriminate].
  destruct (if list_truthy response then _ else _); run; cbn in H;
    [|intuition discriminate].
  destruct H as [H|H]; [discriminate|].
  destruct (session_get env _) as [status|e]; cbn in H; [|intuition discriminate].
  destruct (negb (status =? 200)); run; cbn in H; intuition discriminate.
Qed.

(** X14: [create_telegraph_page] never raises, and it returns a URL only for
    a page it has verified: the service answered with a path, the URL is
    that path under https://graph.org/, and fetching it gave status 200.
    Every other outcome is [None] with an error logged. *)
Theorem create_telegraph_page_returns_verified_url :
  forall env title content,
    exists r,
      result (create_telegraph_page title content) env = Ok r
      /\ match r with
         | Some url =>
             exists response path,
               telegraph_create_page env (slice_to 128 title) content = Ok response
               /\ response <> []
               /\ dict_lookup response "path" = Some path
               /\ url = "https://graph.org/" ++ path
               /\ session_get env url = Ok 200
         | None =>
             exists message,
               In (Log ERROR message) (trace (create_telegraph_page title content) env)
         end.
Proof.
  intros env title content. unfold create_telegraph_page. run.
  destruct (telegraph_create_page env _ content) as [response|e] eqn:Hpage.
  - destruct response as [|entry response]; cbn [list_truthy].
    + run. exists None. split; [reflexivity|]. eexists. right. now left.
    + destruct (dict_lookup (entry :: response) "path") as [path|] eqn:Hpath; run.
      * destruct (session_get env _) as [status|e] eqn:Hget.
        -- destruct (status =? 200) eqn:Hstatus; cbn [negb]; run.
           ++ exists (Some ("https://graph.org/" ++ path)). split; [reflexivity|].
              exists (entry :: response), path. apply Z.eqb_eq in Hstatus. subst status.
              repeat split; [discriminate | exact Hpath | exact Hget].
           ++ exists None. split; [reflexivity|]. eexists. right. right. now left.
        -- exists None. split; [reflexivity|]. eexists. right. right. now left.
      * exists None. split; [reflexivity|]. eexists. right. now left.
  - exists None. split; [reflexivity|]. eexists. right. now left.
Qed.

Lemma append_nil_r_string (a : string) : (a ++ "")%string = a.
Proof. induction a as [|c a IH]; [reflexivity|]. cbn. now rewrite IH. Qed.

Lemma code_points_app a b : code_points (a ++ b) = (code_points a + code_points b)%nat.
Proof.
  induction a as [|c a IH]; [reflexivity|].
  cbn [append code_points]. rewrite IH. now destruct (is_continuation c).
Qed.

(** [slice_to n s] is the prefix of [s] that ends at a character boundary and
    holds [n] characters, or all of them when [s] has fewer. *)
Lemma slice_to_prefix s :
  forall n,
    exists rest,
      s = slice_to n s ++ rest
      /\ code_points (slice_to n s) = Nat.min n (code_points s)
      /\ starts_inside_character rest = false.
Proof.
  induction s as [|c s IH]; intros n.
  - exists "". cbn. now rewrite Nat.min_0_r.
  - cbn [slice_to code_points]. destruct (is_continuation c) eqn:Hc.
    + destruct (IH n) as (rest & Hs & Hn & Hrest). exists rest.
      cbn [append code_points]. rewrite Hc, <- Hs. auto.
    + destruct n as [|n].
      * exists (String c s). cbn. now rewrite Hc.
      * destruct (IH n) as (rest & Hs & Hn & Hrest). exists rest.
        cbn [append code_points]. rewrite Hc, <- Hs, Hn. auto.
Qed.

(** X15: the publisher is called with the content as given and with the
    first 128 characters of the title: the title sent is the prefix of the
    title that ends at a character boundary and holds 128 characters, or all
    of them when the title has fewer; a title of at most 128 characters is
    sent whole. *)
Theorem create_telegraph_page_truncates_title :
  forall env title content t c,
    In (CreatePage t c) (trace (create_telegraph_page title content) env) ->
    c = content
    /\ (exists rest,
          title = t ++ rest
          /\ code_points t = Nat.min 128 (code_points title)
          /\ starts_inside_character rest = false)
    /\ ((code_points title <= 128)%nat -> t = title).
Proof.
  intros env title content t c Hin.
  apply create_page_event in Hin as [-> ->].
  destruct (slice_to_prefix title 128) as (rest & Hs & Hn & Hrest).
  split; [reflexivity|]. split; [now exists rest|].
  intros Hshort. rewrite Hs at 2.
  assert (Hcp : code_points rest = O).
  { pose proof (f_equal code_points Hs) as Hcp. rewrite code_points_app, Hn in Hcp.
    rewrite Nat.min_r in Hcp by exact Hshort. lia. }
  destruct rest as [|c rest]; [now rewrite append_nil_r_string|].
  cbn in Hrest, Hcp. rewrite Hrest in Hcp. discriminate.
Qed.

Lemma create_telegraph_page_truncates_title_witness :
  "<hr>" = "<hr>"
  /\ (exists rest,
        long_title = repeat_string 128 "é" ++ rest
        /\ code_points (repeat_string 128 "é") = Nat.min 128 (code_points long_title)
        /\ starts_inside_character rest = false)
  /\ ((code_points long_title <= 128)%nat -> repeat_string 128 "é" = long_title).
Proof.
  apply (create_telegraph_page_truncates_title (answering_env "General")
           long_title "<hr>" (repeat_string 128 "é") "<hr>").
  left. reflexivity.
Defined.

(** ** The request orchestrator, further *)

(** X16: [process_media] lets an exception out in two places only: when the
    first reply raises, and when sending the unexpected-error message
    raises.  Every other exception of the pipeline ends in that handler. *)
Theorem process_media_raises_only_from_chat :
  forall env message e,
    result (process_media message) env = Raise e ->
    reply_text env msg_processing = Raise e \/ edit_text env msg_unexpected = Raise e.
Proof.
  intros env message e. unfold process_media. run.
  destruct (reply_text env msg_processing) as [[]|e0]; [|intros H; left; congruence].
  unfold report_unexpected. run.
  match goal with
  | |- match ?r with Ok _ => _ | Raise _ => _ end = _ -> _ => destruct r as [[]|e1]
  end; [discriminate|].
  intros H. now right.
Qed.

Lemma process_media_raises_only_from_chat_witness :
  reply_text env_chat_down msg_processing = Raise (OtherError "ConnectionError")
  \/ edit_text env_chat_down msg_unexpected = Raise (OtherError "ConnectionError").
Proof.
  apply (process_media_raises_only_from_chat env_chat_down video_message).
  reflexivity.
Defined.

Lemma split_at_unique {A : Type} (P : A -> bool) (a b before after : list A) (x y : A) :
  Forall (fun z => P z = false) a -> Forall (fun z => P z = false) b ->
  P y = true ->
  (a ++ x :: b = before ++ y :: after)%list ->
  before = a /\ y = x /\ after = b.
Proof.
  intros Ha Hb Hy. revert before.
  induction Ha as [|z a Hz Ha IH]; intros before Heq.
  - destruct before as [|w before]; cbn in Heq.
    + injection Heq as -> ->. now repeat split.
    + injection Heq as -> Heq. exfalso.
      assert (Hin : In y b) by (rewrite Heq; apply in_or_app; right; now left).
      rewrite Forall_forall in Hb. specialize (Hb y Hin). congruence.
  - destruct before as [|w before]; cbn in Heq.
    + injection Heq as <- _. congruence.
    + injection Heq as -> Heq. destruct (IH before Heq) as (-> & -> & ->).
      now repeat split.
Qed.

(** X17: removing the temporary file is the last thing a request does with
    the outside world apart from logging and chat: the file is removed at
    most once, it is the file the request was given, and after [Unlink] the
    trace holds no download, analysis, publish or file event. *)
Theorem nothing_follows_unlink_but_chat_and_log :
  forall env message before after p,
    trace (process_media message) env = (before ++ Unlink p :: after)%list ->
    named_temporary_file env = Ok p
    /\ Forall (fun ev => in_stages [Cleanup] ev = false) before
    /\ Forall (fun ev => in_stages [Chat; Logging] ev = true) after.
Proof.
  intros env message before after p Htr.
  assert (Hin : In (Unlink p) (trace (process_media message) env)).
  { rewrite Htr. apply in_or_app. right. now left. }
  destruct (process_media_shape message env)
    as [H | [(e & rest & Hshape & H) | (p0 & media & Hp & _ & Hshape)]].
  - pose proof (stage_of_member _ _ _ H Hin) as Hs. discriminate Hs.
  - rewrite Hshape in Hin. destruct Hin as [Hin|[Hin|Hin]]; try discriminate.
    pose proof (stage_of_member _ _ _ H Hin) as Hs. discriminate Hs.
  - destruct (trace_cleanup p0 env) as (crest & Hc & Hcrest).
    rewrite Hshape, Hc in Htr.
    set (th := match result (pipeline message media p0) env with
               | Ok _ => []
               | Raise e => trace (report_unexpected e) env
               end) in *.
    assert (Hth : Forall (fun ev => in_stages [Chat; Logging] ev = true) th).
    { subst th. destruct (result (pipeline message media p0) env); [constructor|].
      rewrite trace_report_unexpected. repeat constructor. }
    assert (Hafter : Forall (fun ev => in_stages [Chat; Logging] ev = true) (crest ++ th)).
    { apply Forall_app. split; [|exact Hth].
      eapply Forall_impl; [|exact Hcrest]. intros ev. apply in_stages_weaken. incl_stages. }
    assert (Hbefore : Forall (fun ev => in_stages [Cleanup] ev = false)
              (ReplyText msg_processing :: NamedTemporaryFile (Ok p0)
               :: trace (pipeline message media p0) env)).
    { repeat constructor. eapply Forall_impl; [|apply pipeline_emits].
      intros ev. unfold in_stages. cbn. now destruct (stage_of ev). }
    destruct (split_at_unique (in_stages [Cleanup])
                (ReplyText msg_processing :: NamedTemporaryFile (Ok p0)
                 :: trace (pipeline message media p0) env)
                (crest ++ th) before after (Unlink p0) (Unlink p))
      as (-> & Hy & ->).
    + exact Hbefore.
    + eapply Forall_impl; [|exact Hafter]. intros ev. unfold in_stages. cbn.
      now destruct (stage_of ev).
    + reflexivity.
    + rewrite <- Htr. reflexivity.
    + injection Hy as ->. now repeat split.
Qed.

Lemma nothing_follows_unlink_but_chat_and_log_witness :
  named_temporary_file env_without_tool = Ok "/tmp/tmpa1b2c3".
Proof.
  apply (nothing_follows_unlink_but_chat_and_log env_without_tool video_message
           [ ReplyText msg_processing; NamedTemporaryFile (Ok "/tmp/tmpa1b2c3");
             OpenFile "/tmp/tmpa1b2c3"; NextChunk; WriteFile "chunk-1"; CloseFile;
             EditText msg_analyzing; SubprocessExec "mediainfo" "/tmp/tmpa1b2c3";
             Log ERROR "Error getting mediainfo: "; EditText msg_analysis_failed ]
           [] "/tmp/tmpa1b2c3").
  reflexivity.
Defined.

Lemma created_url_truthy title content env url :
  result (create_telegraph_page title content) env = Ok (Some url) -> truthy url = true.
Proof.
  unfold create_telegraph_page. run.
  destruct (telegraph_create_page env _ content) as [response|e]; [|discriminate].
  destruct (if list_truthy response then _ else _) as [path|]; run; [|discriminate].
  destruct (session_get env _) as [status|e]; [|discriminate].
  destruct (negb (status =? 200)); run; [discriminate|].
  intros H. injection H as <-. reflexivity.
Qed.

Lemma parse_mediainfo_size_text out name size html :
  parse_mediainfo out name size = Ok html -> exists text, format_size size = Ok text.
Proof.
  unfold parse_mediainfo. destruct (format_size size); [eauto | discriminate].
Qed.

(** Once the publisher has been called, everything before it has succeeded:
    the trace is then known up to the publisher's answer. *)
Lemma publish_reached env message t c :
  In (CreatePage t c) (trace (process_media message) env) ->
  t = "Media Info"
  /\ exists media p out name text before after,
       get_media_from_message message = Some media
       /\ named_temporary_file env = Ok p
       /\ result (get_mediainfo p) env = Ok out
       /\ truthy out = true
       /\ media_file_name media = Some name
       /\ format_size (media_file_size media) = Ok text
       /\ parse_mediainfo out name (media_file_size media) = Ok c
       /\ trace (process_media message) env
          = (before
             ++ trace (create_telegraph_page "Media Info" c) env
             ++ match result (create_telegraph_page "Media Info" c) env with
                | Ok r =>
                    match opt_truthy r with
                    | Some url => [EditText (msg_success (Some name) text url)]
                    | None => [EditText msg_report_failed]
                    end
                | Raise _ => []
                end
             ++ after)%list.
Proof.
  intros Hin.
  destruct (process_media_shape message env)
    as [H | [(e & rest & Hshape & H) | (p & media & Hp & Hmedia & Hshape)]].
  - pose proof (stage_of_member _ _ _ H Hin) as Hs. discriminate Hs.
  - rewrite Hshape in Hin. destruct Hin as [Hin|[Hin|Hin]]; try discriminate.
    pose proof (stage_of_member _ _ _ H Hin) as Hs. discriminate Hs.
  - destruct (trace_cleanup p env) as (crest & Hc & Hcrest).
    rewrite Hshape in Hin |- *.
    set (th := match result (pipeline message media p) env with
               | Ok _ => []
               | Raise e => trace (report_unexpected e) env
               end) in *.
    assert (Hth : Forall (fun ev => in_stages [Chat; Logging] ev = true) th).
    { subst th. destruct (result (pipeline message media p) env); [constructor|].
      rewrite trace_report_unexpected. repeat constructor. }
    destruct Hin as [Hin|[Hin|Hin]]; try discriminate.
    apply in_app_or in Hin as [Hin|Hin].
    2:{ exfalso. apply in_app_or in Hin as [Hin|Hin].
        - rewrite Hc in Hin. destruct Hin as [Hin|Hin]; [discriminate|].
          pose proof (stage_of_member _ _ _ Hcrest Hin) as Hs. discriminate Hs.
        - pose proof (stage_of_member _ _ _ Hth Hin) as Hs. discriminate Hs. }
    destruct (pipeline_shape message media p env) as [H | [Ht _]].
    { pose proof (stage_of_member _ _ _ H Hin) as Hs. discriminate Hs. }
    rewrite Ht in Hin |- *.
    pose proof (stream_media_emits message p 1 env) as Hts.
    pose proof (get_mediainfo_emits p env) as Hta.
    apply in_app_or in Hin as [Hin|[Hin|Hin]]; try discriminate.
    { pose proof (stage_of_member _ _ _ Hts Hin) as Hs. discriminate Hs. }
    apply in_app_or in Hin as [Hin|Hin].
    { pose proof (stage_of_member _ _ _ Hta Hin) as Hs. discriminate Hs. }
    destruct (result (get_mediainfo p) env) as [out|e] eqn:Hout; [|destruct Hin].
    unfold report_stage in Hin |- *.
    destruct (truthy out) eqn:Hnonempty; cbn [negb] in Hin |- *.
    2:{ run. destruct Hin as [Hin|[]]; discriminate. }
    run. destruct Hin as [Hin|Hin]; [discriminate|].
    destruct (edit_text env msg_generating) as [[]|e]; [|destruct Hin].
    destruct (media_file_name media) as [name|] eqn:Hname; cbn [parse_mediainfo_call] in *;
      [|destruct Hin].
    destruct (parse_mediainfo out name (media_file_size media)) as [html|e] eqn:Hparse;
      [|destruct Hin].
    destruct (parse_mediainfo_size_text _ _ _ _ Hparse) as (text & Htext).
    rewrite Htext in *. cbn [app] in *. run.
    assert (Hc' : t = "Media Info" /\ c = html).
    { apply in_app_or in Hin as [Hin|Hin]; [now apply create_page_event in Hin|].
      exfalso. destruct (result (create_telegraph_page "Media Info" html) env) as [r|e];
        [|destruct Hin].
      destruct (opt_truthy r); run; destruct Hin as [Hin|[]]; discriminate. }
    destruct Hc' as [-> ->]. split; [reflexivity|].
    exists media, p, out, name, text.
    exists (ReplyText msg_processing :: NamedTemporaryFile (Ok p)
            :: trace (stream_media message p 1) env
            ++ EditText msg_analyzing :: trace (get_mediainfo p) env
            ++ [EditText msg_generating])%list.
    exists (trace (cleanup p) env ++ th)%list.
    repeat split; try assumption; try reflexivity.
    destruct (result (create_telegraph_page "Media Info" html) env) as [r|e];
      [destruct (opt_truthy r)|]; run;
      repeat first [rewrite <- app_assoc | progress cbn [app]];
      rewrite ?app_nil_r; reflexivity.
Qed.

(** X18: the publisher is called only with the title Media Info and with the
    report [parse_mediainfo] builds from a non-empty analysis of the
    temporary file, under the file name and size of the media the request
    found. *)
Theorem publisher_gets_the_report :
  forall env message t c,
    In (CreatePage t c) (trace (process_media message) env) ->
    t = "Media Info"
    /\ exists media p out name,
         get_media_from_message message = Some media
         /\ named_temporary_file env = Ok p
         /\ result (get_mediainfo p) env = Ok out
         /\ out <> ""
         /\ media_file_name media = Some name
         /\ parse_mediainfo out name (media_file_size media) = Ok c.
Proof.
  intros env message t c Hin.
  destruct (publish_reached env message t c Hin)
    as (Ht & media & p & out & name & text & before & after
        & Hmedia & Hp & Hout & Hne & Hname & _ & Hparse & _).
  split; [exact Ht|]. exists media, p, out, name.
  repeat split; try assumption. now apply truthy_true.
Qed.

Lemma publisher_gets_the_report_witness :
  exists media p out name,
    get_media_from_message video_message = Some media
    /\ named_temporary_file (answering_env "General") = Ok p
    /\ result (get_mediainfo p) (answering_env "General") = Ok out
    /\ out <> ""
    /\ media_file_name media = Some name
    /\ parse_mediainfo out name (media_file_size media)
       = Ok (lines [ "<h3>📁 File Information</h3>";
                     "<p><strong>File Name:</strong> <em>clip.mp4</em></p>";
                     "<p><strong>File Size:</strong> <em>5.00 MB</em></p>";
                     "<hr>"; disclaimer ]).
Proof.
  apply (proj2 (publisher_gets_the_report (answering_env "General") video_message "Media Info"
                  (lines [ "<h3>📁 File Information</h3>";
                           "<p><strong>File Name:</strong> <em>clip.mp4</em></p>";
                           "<p><strong>File Size:</strong> <em>5.00 MB</em></p>";
                           "<hr>"; disclaimer ])
                  ltac:(vm_compute; tauto))).
Defined.

(** X19: once the publisher has been called, its answer decides the message:
    a verified URL is reported with the file name, the formatted size and the
    URL, and any failure of the publisher is reported as the fixed
    report-failure message. *)
Theorem publisher_answer_decides_message :
  forall env message t c,
    In (CreatePage t c) (trace (process_media message) env) ->
    match result (create_telegraph_page "Media Info" c) env with
    | Ok (Some url) =>
        exists media text,
          get_media_from_message message = Some media
          /\ format_size (media_file_size media) = Ok text
          /\ In (EditText (msg_success (media_file_name media) text url))
                (trace (process_media message) env)
    | _ => In (EditText msg_report_failed) (trace (process_media message) env)
    end.
Proof.
  intros env message t c Hin.
  destruct (publish_reached env message t c Hin)
    as (_ & media & p & out & name & text & before & after
        & Hmedia & _ & _ & _ & Hname & Htext & _ & Htr).
  destruct (result (create_telegraph_page "Media Info" c) env) as [[url|]|e] eqn:Hr.
  - cbn [opt_truthy] in Htr. rewrite (created_url_truthy _ _ _ _ Hr) in Htr.
    exists media, text. repeat split; try assumption.
    rewrite Htr, Hname. apply in_or_app. right. apply in_or_app. right. now left.
  - rewrite Htr. apply in_or_app. right. apply in_or_app. right. now left.
  - exfalso. revert Hr. unfold create_telegraph_page. run.
    destruct (telegraph_create_page env _ c) as [response|e0]; [|discriminate].
    destruct (if list_truthy response then _ else _); run; [|discriminate].
    destruct (session_get env _) as [status|e0]; [|discriminate].
    destruct (negb (status =? 200)); run; discriminate.
Qed.

Lemma publisher_answer_decides_message_witness :
  In (EditText msg_report_failed) (trace (process_media video_message) env_page_unreachable).
Proof.
  apply (publisher_answer_decides_message env_page_unreachable video_message "Media Info"
           (lines [ "<h3>📁 File Information</h3>";
                    "<p><strong>File Name:</strong> <em>clip.mp4</em></p>";
                    "<p><strong>File Size:</strong> <em>5.00 MB</em></p>";
                    "<hr>"; disclaimer ])).
  vm_compute. tauto.
Defined.

(** X20: a message that replies to a message without media is refused, also
    when it carries media itself: [process_media] looks for media in the
    replied-to message only, sends the no-media message and asks for no
    temporary file. *)
Theorem reply_to_text_hides_own_media :
  forall env message r,
    reply_to_message message = Some r ->
    own_media r = None ->
    reply_text env msg_processing = Ok tt ->
    trace (process_media message) env
    = (ReplyText msg_processing :: EditText msg_no_media
       :: match edit_text env msg_no_media with
          | Ok _ => []
          | Raise e => trace (report_unexpected e) env
          end)%list.
Proof.
  intros env message r Hreply Hnone Hok.
  unfold process_media, get_media_from_message. rewrite Hreply.
  unfold own_media in Hnone. rewrite Hnone. run. rewrite Hok. cbn [app].
  now destruct (edit_text env msg_no_media).
Qed.

Lemma reply_to_text_hides_own_media_witness :
  trace (process_media document_replying_to_text) (answering_env "General")
  = [ReplyText msg_processing; EditText msg_no_media].
Proof.
  apply (reply_to_text_hides_own_media (answering_env "General") document_replying_to_text
           (mk_message None None None None)); reflexivity.
Defined.

Lemma write_chunks_from_stream chunks env chunk :
  forall limit downloaded,
    In (WriteFile chunk) (trace (write_chunks limit downloaded chunks) env) ->
    In (Ok chunk) chunks.
Proof.
  induction chunks as [|next rest IH]; intros limit downloaded; cbn [write_chunks].
  - rewrite trace_ret. intros [].
  - rewrite trace_bind, trace_call, result_call.
    intros [H|H]; [discriminate|].
    destruct next as [c|e]; [|destruct H].
    rewrite trace_bind, trace_call, result_call in H.
    destruct H as [H|H]; [injection H as ->; now left|].
    destruct (file_write env c) as [[]|e]; [|destruct H].
    destruct (downloaded + 1 >=? limit); [destruct H|].
    right. eapply IH. exact H.
Qed.

Lemma pipeline_download_events message media p env ev :
  stage_of ev = Download ->
  In ev (trace (pipeline message media p) env) ->
  In ev (trace (stream_media message p 1) env).
Proof.
  intros Hst Hin. unfold pipeline in Hin. rewrite trace_bind in Hin.
  apply in_app_or in Hin as [Hin|Hin]; [exact Hin|]. exfalso.
  destruct (result (stream_media message p 1) env) as [d|e]; [|destruct Hin].
  assert (Hk : Forall (fun ev => in_stages [Chat; Analysis; Publish; Logging] ev = true)
                 (trace match opt_truthy d with
                        | Some downloaded_path =>
                            bind (status_edit_text msg_analyzing) (fun _ =>
                            bind (get_mediainfo downloaded_path) (fun mediainfo_output =>
                            report_stage media mediainfo_output))
                        | None => status_edit_text msg_download_failed
                        end env)).
  { destruct (opt_truthy d); [|apply emits_call; reflexivity].
    apply emits_bind; [apply emits_call; reflexivity|]. intros _.
    apply emits_bind.
    - eapply emits_weaken; [|apply get_mediainfo_emits]. incl_stages.
    - intros out. eapply emits_weaken; [|apply report_stage_emits]. incl_stages. }
  pose proof (stage_of_member _ _ _ Hk Hin) as Hs.
  unfold in_stages in Hs. rewrite Hst in Hs. discriminate Hs.
Qed.

(** X21: for a message that carries media and replies to a message with
    media, the report and the sample come from different files: the report
    is built with the file name and size of the replied-to media, while every
    chunk written to the temporary file is streamed from the media of the
    message itself. *)
Theorem report_and_sample_from_different_media :
  forall env message r replied own,
    reply_to_message message = Some r ->
    own_media r = Some replied ->
    own_media message = Some own ->
    (forall t c,
       In (CreatePage t c) (trace (process_media message) env) ->
       exists out name,
         media_file_name replied = Some name
         /\ parse_mediainfo out name (media_file_size replied) = Ok c)
    /\ (forall chunk,
          In (WriteFile chunk) (trace (process_media message) env) ->
          In (Ok chunk) (app_stream_media env own 1)).
Proof.
  intros env message r replied own Hreply Hreplied Hown.
  assert (Hmedia : get_media_from_message message = Some replied).
  { unfold get_media_from_message. rewrite Hreply. exact Hreplied. }
  split.
  - intros t c Hin.
    destruct (publish_reached env message t c Hin)
      as (_ & media & p & out & name & text & before & after
          & Hm & _ & _ & _ & Hname & _ & Hparse & _).
    rewrite Hmedia in Hm. injection Hm as <-. eauto.
  - intros chunk Hin.
    destruct (process_media_shape message env)
      as [H | [(e & rest & Hshape & H) | (p & media & Hp & _ & Hshape)]].
    + pose proof (stage_of_member _ _ _ H Hin) as Hs. discriminate Hs.
    + rewrite Hshape in Hin. destruct Hin as [Hin|[Hin|Hin]]; try discriminate.
      pose proof (stage_of_member _ _ _ H Hin) as Hs. discriminate Hs.
    + destruct (trace_cleanup p env) as (crest & Hc & Hcrest).
      rewrite Hshape in Hin.
      destruct Hin as [Hin|[Hin|Hin]]; try discriminate.
      apply in_app_or in Hin as [Hin|Hin].
      2:{ exfalso. apply in_app_or in Hin as [Hin|Hin].
          - rewrite Hc in Hin. destruct Hin as [Hin|Hin]; [discriminate|].
            pose proof (stage_of_member _ _ _ Hcrest Hin) as Hs. discriminate Hs.
          - destruct (result (pipeline message media p) env); [destruct Hin|].
            rewrite trace_report_unexpected in Hin.
            destruct Hin as [Hin|[Hin|[]]]; discriminate. }
      apply (pipeline_download_events message media p env (WriteFile chunk) eq_refl) in Hin.
      rename Hin into Hs.
      rewrite (stream_media_unfold _ p 1 _ Hown) in Hs. revert Hs. run.
      intros [Hs|Hs]; [discriminate|].
      destruct (aiofiles_open env p); cbn [app] in Hs.
      * apply in_app_or in Hs as [Hs|Hs].
        -- apply in_app_or in Hs as [Hs|Hs].
           ++ apply in_app_or in Hs as [Hs|Hs].
              ** eapply write_chunks_from_stream. exact Hs.
              ** destruct Hs as [Hs|[]]. discriminate.
           ++ destruct (match file_close env with Ok _ => _ | Raise e => Raise e end);
                destruct Hs.
        -- destruct (match match file_close env with Ok _ => _ | Raise e => Raise e end with
                     | Ok _ => _ | Raise e => Raise e end); [destruct Hs|].
           destruct Hs as [Hs|[]]. discriminate.
      * destruct Hs as [Hs|[]]. discriminate.
Qed.

Lemma report_and_sample_from_different_media_witness :
  In (Ok "chunk-1") (app_stream_media (answering_env "General") (mk_media (Some "other.mkv") 1536) 1).
Proof.
  apply (proj2 (report_and_sample_from_different_media (answering_env "General")
                  video_replying_to_video video_message
                  (mk_media (Some "clip.mp4") 5242880) (mk_media (Some "other.mkv") 1536)
                  eq_refl eq_refl eq_refl)).
  vm_compute. tauto.
Defined.

(** X22: [/mediainfo] on a message that replies to nothing, or to a message
    without media, only sends the usage hint; on a reply to a media message
    it handles the replied-to message, and when that message is not a reply
    itself, the media reported is the media sampled. *)
Theorem mediainfo_command_needs_media_reply :
  forall env message,
    (reply_to_message message = None
     \/ (exists r, reply_to_message message = Some r /\ own_media r = None) ->
     trace (mediainfo_command message) env = [ReplyText msg_reply_needed]
     /\ result (mediainfo_command message) env = reply_text env msg_reply_needed)
    /\ (forall r media,
          reply_to_message message = Some r ->
          own_media r = Some media ->
          mediainfo_command message env = process_media r env
          /\ (reply_to_message r = None -> get_media_from_message r = Some media)).
Proof.
  intros env message. split.
  - intros [Hnone | (r & Hreply & Hnone)]; unfold mediainfo_command.
    + rewrite Hnone. now run.
    + rewrite Hreply. unfold own_media in Hnone. rewrite Hnone. now run.
  - intros r media Hreply Hmedia. unfold mediainfo_command. rewrite Hreply.
    unfold own_media in Hmedia. rewrite Hmedia. split; [reflexivity|].
    intros Hr. unfold get_media_from_message. now rewrite Hr.
Qed.

Lemma mediainfo_command_needs_media_reply_witness :
  trace (mediainfo_command video_message) (answering_env "General")
  = [ReplyText msg_reply_needed]
  /\ mediainfo_command command_message (answering_env "General")
     = process_media video_message (answering_env "General").
Proof.
  split.
  - apply (proj1 (mediainfo_command_needs_media_reply (answering_env "General") video_message)).
    left. reflexivity.
  - apply (proj2 (mediainfo_command_needs_media_reply (answering_env "General") command_message)
             video_message (mk_media (Some "clip.mp4") 5242880)); reflexivity.
Defined.
